(** * tdo: the task CRUD service of [backend/main.py]

    A shallow embedding of the four request handlers ([create_task],
    [get_tasks], [update_task], [delete_task]) together with the pieces of
    their environment they depend on:

    - the [tasks] table as declared by the [Task] model (columns, primary key,
      nullability, column defaults) and its [SERIAL] id sequence;
    - a SQLAlchemy session: instances tracked by reference, a unit of work
      flushed by [commit], and a transaction whose effects reach the table
      only when the commit goes through;
    - Python exceptions, with [try ... except Exception] catching every
      exception, [HTTPException] included (it derives from [Exception]);
    - store failures, scheduled by a fault plan handed to each request.

    Handlers are modelled up to the value they return; [respond] gives the
    answer FastAPI makes of it, the [response_model] of the route
    included. *)

From Stdlib Require Import ZArith List String Ascii Bool Lia Permutation.
Import ListNotations.

Open Scope Z_scope.
Open Scope string_scope.
Open Scope list_scope.

(* ================================================================= *)
(** ** Exceptions and the handler monad *)

(** The two kinds of exception the handlers meet.  Both are instances of
    Python's [Exception]: FastAPI's [HTTPException] derives from Starlette's,
    which derives from [Exception]; the errors of the store derive from
    [SQLAlchemyError]. *)
Inductive exn : Type :=
| HTTPException (status_code : Z) (detail : string)
| SQLAlchemyError (msg : string).

Inductive outcome (A : Type) : Type :=
| Return (a : A)
| Raise (e : exn).
Arguments Return {A} a.
Arguments Raise {A} e.

(* ================================================================= *)
(** ** The [tasks] table *)

(** A stored row.  [id] is the primary key and therefore never NULL; every
    other column can hold NULL ([None]). *)
Module Row.
Record t : Type := mk {
  id : Z;
  title : option string;
  description : option string;
  completed : option bool;
  color : option string
}.
End Row.

(** Column declarations of [class Task(Base)]. *)
Inductive sql_type : Type := Integer | String_ | Boolean.

Inductive py_value : Type :=
| PyNone
| PyBool (b : bool)
| PyStr (s : string)
| PyInt (n : Z).

Module Column.
Record t : Type := mk {
  name : string;
  type_ : sql_type;
  primary_key : bool;
  nullable_arg : option bool;      (* the [nullable=] keyword, when given *)
  default : option py_value        (* the [default=] keyword, when given *)
}.

(** SQLAlchemy: [nullable] defaults to [True], except for primary key
    columns, where it defaults to [False]. *)
Definition nullable (c : t) : bool :=
  match nullable_arg c with
  | Some b => b
  | None => negb (primary_key c)
  end.

Definition has_default (c : t) : bool :=
  match default c with Some _ => true | None => false end.
End Column.

(** An instance of the mapped class [Task]: the attributes of a Python object.
    [id] is [None] until the instance has been inserted. *)
Module Task.
Record t : Type := mk {
  id : option Z;
  title : option string;
  description : option string;
  completed : option bool;
  color : option string
}.

Definition __tablename__ : string := "tasks".

Definition id_column : Column.t :=
  Column.mk "id" Integer true None None.
Definition title_column : Column.t :=
  Column.mk "title" String_ false None None.
Definition description_column : Column.t :=
  Column.mk "description" String_ false None None.
Definition completed_column : Column.t :=
  Column.mk "completed" Boolean false None (Some (PyBool false)).
Definition color_column : Column.t :=
  Column.mk "color" String_ false None None.

Definition columns : list Column.t :=
  [id_column; title_column; description_column; completed_column;
   color_column].

(** [Task(title=..., description=..., color=..., completed=...)] *)
Definition init (title description color : string) (completed : bool) : t :=
  mk None (Some title) (Some description) (Some completed) (Some color).

(** The instance loaded from a row. *)
Definition load (r : Row.t) : t :=
  mk (Some (Row.id r)) (Row.title r) (Row.description r) (Row.completed r)
     (Row.color r).

(** The row an instance is written to, under primary key [pk]. *)
Definition store (pk : Z) (o : t) : Row.t :=
  Row.mk pk (title o) (description o) (completed o) (color o).
End Task.

(** Whether a row holds NULL in the column of the given name. *)
Definition is_null (r : Row.t) (column : string) : bool :=
  if column =? "title" then
    match Row.title r with None => true | Some _ => false end
  else if column =? "description" then
    match Row.description r with None => true | Some _ => false end
  else if column =? "completed" then
    match Row.completed r with None => true | Some _ => false end
  else if column =? "color" then
    match Row.color r with None => true | Some _ => false end
  else false.

(** The NOT NULL constraints of the table, as the declarations give them. *)
Definition not_null_ok (r : Row.t) : bool :=
  forallb (fun c => Column.nullable c || negb (is_null r (Column.name c)))
          Task.columns.

(** Largest value of a [SERIAL] (int4) sequence. *)
Definition INT4_MAX : Z := 2147483647.

(* ================================================================= *)
(** ** Request and response models *)

Module TaskCreate.
Record t : Type := mk {
  title : string;
  description : string;
  completed : bool;
  color : string
}.

(** A JSON body accepted by the model: [title] and [description] are
    required, the other two may be left out. *)
Record body : Type := mk_body {
  b_title : string;
  b_description : string;
  b_completed : option bool;
  b_color : option string
}.

(** Validation fills the declared defaults in. *)
Definition parse (b : body) : t :=
  mk (b_title b) (b_description b)
     (match b_completed b with Some c => c | None => false end)
     (match b_color b with Some c => c | None => "#ffffff" end).
End TaskCreate.

(** One entry of a dictionary of [Task] attributes: the key together with a
    value of the type the key admits. *)
Inductive item : Type :=
| title_item (v : option string)
| description_item (v : option string)
| completed_item (v : option bool)
| color_item (v : option string).

Module TaskUpdate.
(** Every field is [Optional[...] = None].  The outer [option] records
    whether the request set the field at all; a field can be set to
    [None] (JSON null). *)
Record t : Type := mk {
  title : option (option string);
  description : option (option string);
  completed : option (option bool);
  color : option (option string)
}.

Definition opt_item {A} (f : A -> item) (x : option A) : list item :=
  match x with Some v => [f v] | None => [] end.

(** [task.dict(exclude_unset=True)], in field order. *)
Definition dict_exclude_unset (u : t) : list item :=
  opt_item title_item (title u) ++
  opt_item description_item (description u) ++
  opt_item completed_item (completed u) ++
  opt_item color_item (color u).
End TaskUpdate.

(** [setattr(db_task, key, value)] *)
Definition setattr (o : Task.t) (kv : item) : Task.t :=
  match kv with
  | title_item v =>
      Task.mk (Task.id o) v (Task.description o) (Task.completed o)
              (Task.color o)
  | description_item v =>
      Task.mk (Task.id o) (Task.title o) v (Task.completed o) (Task.color o)
  | completed_item v =>
      Task.mk (Task.id o) (Task.title o) (Task.description o) v (Task.color o)
  | color_item v =>
      Task.mk (Task.id o) (Task.title o) (Task.description o)
              (Task.completed o) v
  end.


(* ================================================================= *)
(** ** The store and the session *)

(** What persists between requests: the committed rows of [tasks], the next
    value of the id sequence, and the server log. *)
Record World : Type := mkWorld {
  tasks : list Row.t;
  tasks_id_seq : Z;
  log : list (string * exn)
}.

(** The table right after [Base.metadata.create_all]. *)
Definition empty_world : World := mkWorld [] 1 [].

(** States of an instance with respect to the session. *)
Inductive instance_state : Type :=
| Transient | Pending | Persistent | Deleted | Detached.

(** A tracked instance: its state, whether an attribute was set since it was
    loaded, and its attributes. *)
Record instance : Type := mkInstance {
  state : instance_state;
  modified : bool;
  attrs : Task.t
}.

(** A reference to a Python object. *)
Definition ref : Type := nat.

(** The state a handler runs in: the world, the rows as the open transaction
    sees them, the instances allocated so far, and the store failures still
    to come (one entry per store call: [Some msg] makes the call raise). *)
Record St : Type := mkSt {
  world : World;
  txn : list Row.t;
  heap : list instance;
  faults : list (option string)
}.

Definition M (A : Type) : Type := St -> outcome A * St.

Definition ret {A} (a : A) : M A := fun s => (Return a, s).

Definition raise {A} (e : exn) : M A := fun s => (Raise e, s).

Definition bind {A B} (c : M A) (k : A -> M B) : M B :=
  fun s =>
    match c s with
    | (Return a, s') => k a s'
    | (Raise e, s') => (Raise e, s')
    end.

Notation "x <- c ;; k" := (bind c (fun x => k))
  (at level 61, c at next level, right associativity).
Notation "c ;; k" := (bind c (fun _ => k))
  (at level 61, right associativity).

(** [try: body except Exception as e: handler e].  Every [exn] is an
    [Exception], so nothing gets past the handler. *)
Definition try_except_Exception {A} (body : M A) (handler : exn -> M A) : M A :=
  fun s =>
    match body s with
    | (Return a, s') => (Return a, s')
    | (Raise e, s') => handler e s'
    end.

Fixpoint for_each {A} (l : list A) (body : A -> M unit) : M unit :=
  match l with
  | [] => ret tt
  | x :: l' => body x ;; for_each l' body
  end.

Definition gets {A} (f : St -> A) : M A := fun s => (Return (f s), s).

Definition set_txn (rows : list Row.t) : M unit :=
  fun s => (Return tt, mkSt (world s) rows (heap s) (faults s)).

Definition set_heap (h : list instance) : M unit :=
  fun s => (Return tt, mkSt (world s) (txn s) h (faults s)).

(** [logger.error(f"{prefix}{e}")] *)
Definition logger_error (prefix : string) (e : exn) : M unit :=
  fun s =>
    let w := world s in
    (Return tt,
     mkSt (mkWorld (tasks w) (tasks_id_seq w) (log w ++ [(prefix, e)]))
          (txn s) (heap s) (faults s)).

(** A round trip to the database: it raises when the fault plan says so. *)
Definition store_call : M unit :=
  fun s =>
    match faults s with
    | [] => (Return tt, s)
    | None :: fs => (Return tt, mkSt (world s) (txn s) (heap s) fs)
    | Some msg :: fs =>
        (Raise (SQLAlchemyError msg), mkSt (world s) (txn s) (heap s) fs)
    end.

(** [nextval('tasks_id_seq')].  Sequences are not transactional: a value
    handed out is gone even when the transaction is rolled back. *)
Definition nextval : M Z :=
  fun s =>
    let w := world s in
    let n := tasks_id_seq w in
    if (n >? INT4_MAX)%Z then
      (Raise (SQLAlchemyError "nextval: reached maximum value of sequence"), s)
    else
      (Return n,
       mkSt (mkWorld (tasks w) (n + 1) (log w)) (txn s) (heap s) (faults s)).

Definition has_id (pk : Z) (r : Row.t) : bool := (Row.id r =? pk)%Z.

(** INSERT INTO tasks (title, description, completed, color) VALUES ... *)
Definition sql_insert (o : Task.t) : M Z :=
  pk <- nextval ;;
  rows <- gets txn ;;
  let r := Task.store pk o in
  if existsb (has_id pk) rows then
    raise (SQLAlchemyError "duplicate key value violates unique constraint")
  else if negb (not_null_ok r) then
    raise (SQLAlchemyError "null value violates not-null constraint")
  else
    set_txn (rows ++ [r]) ;; ret pk.

(** UPDATE tasks SET ... WHERE tasks.id = pk *)
Definition sql_update (pk : Z) (o : Task.t) : M unit :=
  rows <- gets txn ;;
  let r := Task.store pk o in
  if negb (not_null_ok r) then
    raise (SQLAlchemyError "null value violates not-null constraint")
  else
    set_txn (map (fun r' => if has_id pk r' then r else r') rows).

(** DELETE FROM tasks WHERE tasks.id = pk *)
Definition sql_delete (pk : Z) : M unit :=
  rows <- gets txn ;;
  set_txn (filter (fun r' => negb (has_id pk r')) rows).

(** Writes one instance out and returns it in its new state: an INSERT for
    a pending instance, an UPDATE for a persistent one that was modified, a
    DELETE for one marked as deleted. *)
Definition flush_instance (i : instance) : M instance :=
  match state i, Task.id (attrs i) with
  | Pending, _ =>
      pk <- sql_insert (attrs i) ;;
      ret (mkInstance Persistent false
             (Task.mk (Some pk) (Task.title (attrs i))
                (Task.description (attrs i)) (Task.completed (attrs i))
                (Task.color (attrs i))))
  | Persistent, Some pk =>
      if modified i then
        sql_update pk (attrs i) ;; ret (mkInstance Persistent false (attrs i))
      else ret i
  | Deleted, Some pk =>
      sql_delete pk ;; ret (mkInstance Detached false (attrs i))
  | _, _ => ret i
  end.

Fixpoint flush_all (l : list instance) : M (list instance) :=
  match l with
  | [] => ret []
  | i :: l' =>
      i' <- flush_instance i ;;
      l'' <- flush_all l' ;;
      ret (i' :: l'')
  end.

(** The unit of work: every tracked instance is written to the transaction. *)
Definition flush : M unit :=
  store_call ;;
  h <- gets heap ;;
  h' <- flush_all h ;;
  set_heap h'.

(** COMMIT: the rows of the transaction become the rows of the table. *)
Definition publish : M unit :=
  fun s =>
    let w := world s in
    (Return tt,
     mkSt (mkWorld (txn s) (tasks_id_seq w) (log w)) (txn s) (heap s)
          (faults s)).

(** [db.commit()] *)
Definition db_commit : M unit :=
  flush ;; store_call ;; publish.

Definition dummy : instance :=
  mkInstance Detached false (Task.mk None None None None None).

Definition deref (x : ref) : M instance := gets (fun s => nth x (heap s) dummy).

Fixpoint list_set {A} (l : list A) (n : nat) (a : A) : list A :=
  match l, n with
  | [], _ => []
  | _ :: l', O => a :: l'
  | x :: l', S n' => x :: list_set l' n' a
  end.

Definition assign (x : ref) (i : instance) : M unit :=
  h <- gets heap ;; set_heap (list_set h x i).

(** Allocation of a fresh Python object. *)
Definition alloc (i : instance) : M ref :=
  h <- gets heap ;; set_heap (h ++ [i])%list ;; ret (List.length h).

(** [Task(...)]: a new instance, not yet known to the session. *)
Definition new_Task (title description color : string) (completed : bool)
  : M ref :=
  alloc (mkInstance Transient false
           (Task.init title description color completed)).

(** [db.add(x)] *)
Definition db_add (x : ref) : M unit :=
  i <- deref x ;;
  match state i with
  | Transient => assign x (mkInstance Pending false (attrs i))
  | _ => ret tt
  end.

(** [db.delete(x)] *)
Definition db_delete (x : ref) : M unit :=
  i <- deref x ;;
  match state i with
  | Persistent => assign x (mkInstance Deleted (modified i) (attrs i))
  | _ => raise (SQLAlchemyError "Instance is not persisted")
  end.

(** [db.refresh(x)]: the attributes are read again from the row. *)
Definition db_refresh (x : ref) : M unit :=
  store_call ;;
  i <- deref x ;;
  rows <- gets txn ;;
  match state i, Task.id (attrs i) with
  | Persistent, Some pk =>
      match find (has_id pk) rows with
      | Some r => assign x (mkInstance Persistent false (Task.load r))
      | None => raise (SQLAlchemyError "Could not refresh instance")
      end
  | _, _ => raise (SQLAlchemyError "Instance is not persistent within this Session")
  end.

(** [setattr(x, key, value)] on a tracked instance, which is modified from
    then on. *)
Definition obj_setattr (x : ref) (kv : item) : M unit :=
  i <- deref x ;;
  assign x (mkInstance (state i) true (setattr (attrs i) kv)).

(** The attributes of the object a handler returns. *)
Definition return_obj (x : ref) : M Task.t :=
  i <- deref x ;; ret (attrs i).

(** *** Queries *)

(** The criteria the handlers filter with. *)
Inductive criterion : Type :=
| completed_eq (b : bool)      (* [Task.completed == b] *)
| id_eq (n : Z).               (* [Task.id == n] *)

(** SQL comparison: a NULL operand never satisfies [=]. *)
Definition satisfies (c : criterion) (r : Row.t) : bool :=
  match c with
  | completed_eq b =>
      match Row.completed r with
      | Some v => Bool.eqb v b
      | None => false
      end
  | id_eq n => (Row.id r =? n)%Z
  end.

Definition query : Type := list criterion.

(** [db.query(Task)] *)
Definition db_query_Task : query := [].

(** [q.filter(c)] *)
Definition filter_ (q : query) (c : criterion) : query := (q ++ [c])%list.

Definition select (q : query) (rows : list Row.t) : list Row.t :=
  filter (fun r => forallb (fun c => satisfies c r) q) rows.

(** [q.all()]: the instances are only read by the handler, so they are given
    by their attributes. *)
Definition all (q : query) : M (list Task.t) :=
  store_call ;;
  rows <- gets txn ;;
  ret (map Task.load (select q rows)).

(** [q.first()]: [None], or a reference to the instance of the first row. *)
Definition first (q : query) : M (option ref) :=
  store_call ;;
  rows <- gets txn ;;
  match select q rows with
  | [] => ret None
  | r :: _ =>
      x <- alloc (mkInstance Persistent false (Task.load r)) ;; ret (Some x)
  end.

(** [SessionLocal()] *)
Definition SessionLocal (w : World) (fs : list (option string)) : St :=
  mkSt w (tasks w) [] fs.

(** [Depends(get_db)]: the endpoint runs in a session of its own, closed when
    it is done; what was not committed is lost. *)
Definition get_db {A} (endpoint : M A) (fs : list (option string)) (w : World)
  : outcome A * World :=
  let (r, s) := endpoint (SessionLocal w fs) in (r, world s).


(* ================================================================= *)
(** ** The request handlers *)

(** [str.lower()].  Strings are byte strings (UTF-8); only the letters A-Z
    are affected.  No character outside ASCII lowers to a letter of
    ["completed"], so the comparison of [get_tasks] reads the same on bytes
    as on code points. *)
Definition lower_ascii (c : ascii) : ascii :=
  let n := nat_of_ascii c in
  if ((65 <=? n) && (n <=? 90))%nat then ascii_of_nat (n + 32) else c.

Fixpoint lower (s : string) : string :=
  match s with
  | EmptyString => EmptyString
  | String c s' => String (lower_ascii c) (lower s')
  end.

(** POST /tasks/ *)
Definition create_task (task : TaskCreate.t) : M Task.t :=
  try_except_Exception
    (db_task <- new_Task (TaskCreate.title task) (TaskCreate.description task)
                         (TaskCreate.color task) (TaskCreate.completed task) ;;
     db_add db_task ;;
     db_commit ;;
     db_refresh db_task ;;
     return_obj db_task)
    (fun e =>
       logger_error "Error creating task: " e ;;
       raise (HTTPException 500 "Internal server error")).

(** GET /tasks/ -- [if status:] holds for a string that is present and not
    empty. *)
Definition get_tasks (status : option string) : M (list Task.t) :=
  try_except_Exception
    (tasks <- match status with
              | Some (String _ _ as status) =>
                  all (filter_ db_query_Task
                         (completed_eq (lower status =? "completed")))
              | _ =>
                  all db_query_Task
              end ;;
     ret tasks)
    (fun e =>
       logger_error "Error fetching tasks: " e ;;
       raise (HTTPException 500 "Internal server error")).

(** PUT /tasks/{task_id} *)
Definition update_task (task_id : Z) (task : TaskUpdate.t) : M Task.t :=
  try_except_Exception
    (db_task <- first (filter_ db_query_Task (id_eq task_id)) ;;
     match db_task with
     | None => raise (HTTPException 404 "Task not found")
     | Some db_task =>
         let update_data := TaskUpdate.dict_exclude_unset task in
         for_each update_data (fun kv => obj_setattr db_task kv) ;;
         db_commit ;;
         db_refresh db_task ;;
         return_obj db_task
     end)
    (fun e =>
       logger_error "Error updating task: " e ;;
       raise (HTTPException 500 "Internal server error")).

(** DELETE /tasks/{task_id} *)
Definition delete_task (task_id : Z) : M (list (string * string)) :=
  try_except_Exception
    (db_task <- first (filter_ db_query_Task (id_eq task_id)) ;;
     match db_task with
     | None => raise (HTTPException 404 "Task not found")
     | Some db_task =>
         db_delete db_task ;;
         db_commit ;;
         ret [("message", "Task deleted successfully")]
     end)
    (fun e =>
       logger_error "Error deleting task: " e ;;
       raise (HTTPException 500 "Internal server error")).

(* ================================================================= *)
(** ** The application *)

Inductive request : Type :=
| POST_tasks (body : TaskCreate.body)
| GET_tasks (status : option string)
| PUT_tasks (task_id : Z) (task : TaskUpdate.t)
| DELETE_tasks (task_id : Z).

(** What a handler hands back to the framework. *)
Inductive content : Type :=
| one_task (t : Task.t)
| task_list (l : list Task.t)
| dict (d : list (string * string)).

Definition route (r : request) : M content :=
  match r with
  | POST_tasks body => t <- create_task (TaskCreate.parse body) ;; ret (one_task t)
  | GET_tasks status => l <- get_tasks status ;; ret (task_list l)
  | PUT_tasks task_id task => t <- update_task task_id task ;; ret (one_task t)
  | DELETE_tasks task_id => d <- delete_task task_id ;; ret (dict d)
  end.

(** One request, served in a session of its own under fault plan [fs]. *)
Definition serve (r : request) (fs : list (option string)) (w : World)
  : outcome content * World :=
  get_db (route r) fs w.

(** A history of requests; the responses come out oldest first. *)
Fixpoint run (w : World) (history : list (request * list (option string)))
  : list (outcome content) * World :=
  match history with
  | [] => ([], w)
  | (r, fs) :: rest =>
      let (resp, w') := serve r fs w in
      let (resps, w'') := run w' rest in
      (resp :: resps, w'')
  end.

(* ================================================================= *)
(** ** Equality up to case, stated on its own

    The specification speaks of a status that equals "completed" up to
    case; the code compares [status.lower()] with "completed".  This is the
    former, defined without [lower]. *)

Definition is_upper (c : ascii) : bool :=
  let n := nat_of_ascii c in ((65 <=? n) && (n <=? 90))%nat.

(** Two characters that are the same letter up to case. *)
Definition same_letter (a b : ascii) : bool :=
  (a =? b)%char
  || (is_upper a && (nat_of_ascii a + 32 =? nat_of_ascii b)%nat)
  || (is_upper b && (nat_of_ascii b + 32 =? nat_of_ascii a)%nat).

(** Equality of strings up to the case of their letters. *)
Fixpoint caseless_eq (s t : string) : bool :=
  match s, t with
  | EmptyString, EmptyString => true
  | String a s', String b t' => same_letter a b && caseless_eq s' t'
  | _, _ => false
  end.

(** The rows whose [completed] column holds the boolean [b]. *)
Definition completed_is (b : bool) (r : Row.t) : bool :=
  match Row.completed r with
  | Some v => Bool.eqb v b
  | None => false
  end.

(** A string without capital letters. *)
Fixpoint no_upper (s : string) : bool :=
  match s with
  | EmptyString => true
  | String c s' => negb (is_upper c) && no_upper s'
  end.

(* ================================================================= *)
(** ** Notions the statements use *)

(** The primary keys present in the table. *)
Definition ids (w : World) : list Z := map Row.id (tasks w).

(** The stored row a request addressed to [task_id] finds. *)
Definition lookup (task_id : Z) (w : World) : option Row.t :=
  find (has_id task_id) (tasks w).

(** A table as the application leaves it: primary keys are unique and were
    all handed out by the sequence. *)
Definition well_formed (w : World) : Prop :=
  (1 <= tasks_id_seq w)%Z
  /\ NoDup (ids w)
  /\ Forall (fun n => 1 <= n < tasks_id_seq w)%Z (ids w).

(** *** Invariants of a running handler

    [n0] is a lower bound on the sequence; [dead] singles out primary keys
    that must not come back (those of deleted rows). *)

Definition id_fine (n : Z) (dead : Z -> Prop) (k : Z) : Prop :=
  (1 <= k < n)%Z /\ ~ dead k.

Definition rows_fine (n : Z) (dead : Z -> Prop) (rows : list Row.t) : Prop :=
  NoDup (map Row.id rows) /\ Forall (fun r => id_fine n dead (Row.id r)) rows.

Definition task_fine (n : Z) (dead : Z -> Prop) (t : Task.t) : Prop :=
  match Task.id t with
  | Some k => id_fine n dead k
  | None => True
  end.

Definition heap_fine (n : Z) (dead : Z -> Prop) (h : list instance) : Prop :=
  Forall (fun i => task_fine n dead (attrs i)) h.

Definition Inv (n0 : Z) (dead : Z -> Prop) (s : St) : Prop :=
  let n := tasks_id_seq (world s) in
  (n0 <= n)%Z
  /\ (forall k, dead k -> (k < n)%Z)
  /\ rows_fine n dead (tasks (world s))
  /\ rows_fine n dead (txn s)
  /\ heap_fine n dead (heap s).

(** The part of the invariant that outlives the session. *)
Definition world_fine (n0 : Z) (dead : Z -> Prop) (w : World) : Prop :=
  let n := tasks_id_seq w in
  (n0 <= n)%Z
  /\ (forall k, dead k -> (k < n)%Z)
  /\ rows_fine n dead (tasks w).

(** Partial correctness of a computation that may raise: from [P], a normal
    return establishes [Q] and a raise establishes [E]. *)
Definition triple {A} (P : St -> Prop) (c : M A) (Q : A -> St -> Prop)
  (E : St -> Prop) : Prop :=
  forall s, P s ->
    match c s with
    | (Return a, s') => Q a s'
    | (Raise _, s') => E s'
    end.

(** The ids of the tasks a response shows. *)
Definition shown_ids (resp : outcome content) : list Z :=
  match resp with
  | Return (one_task t) =>
      match Task.id t with Some n => [n] | None => [] end
  | Return (task_list l) =>
      flat_map (fun t => match Task.id t with Some n => [n] | None => [] end) l
  | _ => []
  end.

(** A world with three rows, one of them completed and one with NULLs. *)
Definition sample_world : World :=
  mkWorld
    [ Row.mk 1 (Some "A") (Some "d") (Some false) (Some "#ffffff");
      Row.mk 2 (Some "B") (Some "e") (Some true) (Some "#ff0000");
      Row.mk 4 None (Some "f") None (Some "#00ff00") ]
    5 [].

(** The prefix under which a handler logs what it caught. *)
Definition log_prefix (r : request) : string :=
  match r with
  | POST_tasks _ => "Error creating task: "
  | GET_tasks _ => "Error fetching tasks: "
  | PUT_tasks _ _ => "Error updating task: "
  | DELETE_tasks _ => "Error deleting task: "
  end.

(** *** Store failures met by a request *)

(** A computation that makes no store call leaves the fault plan alone. *)
Definition silent {A} (c : M A) : Prop :=
  forall s, faults (snd (c s)) = faults s.

(** So far the session went through a part of [fs] in which nothing failed. *)
Definition unfailed (fs : list (option string)) (s : St) : Prop :=
  exists consumed,
    fs = consumed ++ faults s /\ Forall (fun f => f = None) consumed.

(** The entries of the fault plan a request went through. *)
Definition consumed_faults (r : request) (fs : list (option string))
  (w : World) : list (option string) :=
  let s' := snd (route r (SessionLocal w fs)) in
  firstn (List.length fs - List.length (faults s')) fs.

(** *** Sample requests *)

(** [{"completed": true}] *)
Definition only_completed : TaskUpdate.t :=
  TaskUpdate.mk None None (Some (Some true)) None.

(** [{}] *)
Definition empty_update : TaskUpdate.t := TaskUpdate.mk None None None None.

(** [{"title": null, "description": null}] *)
Definition null_texts : TaskUpdate.t :=
  TaskUpdate.mk (Some None) (Some None) None None.

(** [{"title": "A", "description": "d"}] *)
Definition body_A : TaskCreate.body := TaskCreate.mk_body "A" "d" None None.

(** Two tasks are created, the first is deleted; in between, one request
    loses its commit to a store failure. *)
Definition sample_history : list (request * list (option string)) :=
  [ (POST_tasks body_A, []);
    (POST_tasks body_A, [None; Some "connection reset"]);
    (POST_tasks (TaskCreate.mk_body "B" "e" (Some true) (Some "#000000")), []);
    (GET_tasks None, []);
    (DELETE_tasks 1, []) ].

(* ================================================================= *)
(** ** The response model *)

Module TaskResponse.
Record t : Type := mk {
  id : Z;
  title : string;
  description : string;
  completed : bool;
  color : string
}.

(** [TaskResponse.from_orm(obj)] ([orm_mode = True]): every field is
    required and none of them admits [None]. *)
Definition from_orm (o : Task.t) : option t :=
  match Task.id o, Task.title o, Task.description o, Task.completed o,
        Task.color o with
  | Some i, Some t, Some d, Some c, Some k => Some (mk i t d c k)
  | _, _, _, _, _ => None
  end.
End TaskResponse.

(** [response_model=list[TaskResponse]]: every element has to validate. *)
Fixpoint from_orm_list (l : list Task.t) : option (list TaskResponse.t) :=
  match l with
  | [] => Some []
  | o :: l' =>
      match TaskResponse.from_orm o, from_orm_list l' with
      | Some x, Some xs => Some (x :: xs)
      | _, _ => None
      end
  end.

(** A row that holds no NULL. *)
Definition complete (r : Row.t) : bool :=
  match Row.title r, Row.description r, Row.completed r, Row.color r with
  | Some _, Some _, Some _, Some _ => true
  | _, _, _, _ => false
  end.

(** The task [create_task] builds from a request, under primary key [pk]. *)
Definition created (pk : Z) (task : TaskCreate.t) : Task.t :=
  Task.mk (Some pk) (Some (TaskCreate.title task))
    (Some (TaskCreate.description task)) (Some (TaskCreate.completed task))
    (Some (TaskCreate.color task)).

(** Whether an update payload sets a field to [None] (JSON null). *)
Definition sets_null (u : TaskUpdate.t) : bool :=
  match TaskUpdate.title u with Some None => true | _ => false end
  || match TaskUpdate.description u with Some None => true | _ => false end
  || match TaskUpdate.completed u with Some None => true | _ => false end
  || match TaskUpdate.color u with Some None => true | _ => false end.

(** Requests other than updates that set a field to null. *)
Definition null_free (r : request) : bool :=
  match r with
  | PUT_tasks _ u => negb (sets_null u)
  | _ => true
  end.

(** Whether what a handler returned passes its [response_model]. *)
Definition validates (resp : outcome content) : bool :=
  match resp with
  | Return (one_task t) =>
      match TaskResponse.from_orm t with Some _ => true | None => false end
  | Return (task_list l) =>
      match from_orm_list l with Some _ => true | None => false end
  | _ => true
  end.

(** The content a request's handler result is wrapped in by [route]. *)
Definition wrap {A} (f : A -> content) (o : outcome A) : outcome content :=
  match o with
  | Return a => Return (f a)
  | Raise e => Raise e
  end.

(* ================================================================= *)
(** ** What the caller receives *)

(** The body of an answer. *)
Inductive answer_body : Type :=
| task_body (t : TaskResponse.t)
| tasks_body (l : list TaskResponse.t)
| dict_body (d : list (string * string))
| detail_body (detail : string)        (* [{"detail": detail}] *)
| text_body (s : string).

(** The answer FastAPI gives for what a handler did.  A value returned by a
    route with a [response_model] is passed through that model, and a value
    the model refuses is answered with the framework's own 500; the
    dictionary of [delete_task] is sent as it is; an [HTTPException] is
    answered with its status and detail; anything else that escapes is the
    framework's 500. *)
Definition respond (resp : outcome content) : Z * answer_body :=
  match resp with
  | Return (one_task t) =>
      match TaskResponse.from_orm t with
      | Some x => (200, task_body x)
      | None => (500, text_body "Internal Server Error")
      end
  | Return (task_list l) =>
      match from_orm_list l with
      | Some xs => (200, tasks_body xs)
      | None => (500, text_body "Internal Server Error")
      end
  | Return (dict d) => (200, dict_body d)
  | Raise (HTTPException status_code detail) => (status_code, detail_body detail)
  | Raise (SQLAlchemyError _) => (500, text_body "Internal Server Error")
  end.

(** [{"title": null, "description": null, "completed": null, "color": null}] *)
Definition all_null : TaskUpdate.t :=
  TaskUpdate.mk (Some None) (Some None) (Some None) (Some None).
(* ================================================================= *)
(** ** Basic facts *)

Lemma select_nil rows : select db_query_Task rows = rows.
Proof.
  unfold select, db_query_Task; simpl.
  induction rows as [|r rows IH]; simpl; [reflexivity | now rewrite IH].
Qed.

Lemma select_one c rows :
  select (filter_ db_query_Task c) rows = filter (satisfies c) rows.
Proof.
  unfold select, filter_, db_query_Task; simpl.
  apply filter_ext; intros r; apply andb_true_r.
Qed.

(** *** [lower] against equality up to case *)

Lemma lower_ascii_same_letter a b :
  is_upper b = false ->
  (lower_ascii a =? b)%char = same_letter a b.
Proof.
  intros Hb. unfold same_letter, lower_ascii. rewrite Hb, andb_false_l, orb_false_r.
  fold (is_upper a). destruct (is_upper a) eqn:Ha; simpl.
  - assert (Hab : (a =? b)%char = false).
    { apply Ascii.eqb_neq. intros ->. congruence. }
    rewrite Hab; simpl.
    unfold is_upper in Ha. apply andb_prop in Ha as [_ Hle].
    apply Nat.leb_le in Hle.
    destruct (Nat.eqb_spec (nat_of_ascii a + 32) (nat_of_ascii b)) as [E|E].
    + rewrite E, ascii_nat_embedding. apply Ascii.eqb_refl.
    + apply Ascii.eqb_neq. intros <-. apply E.
      rewrite nat_ascii_embedding; [reflexivity | lia].
  - now rewrite orb_false_r.
Qed.

Lemma lower_caseless s : forall t,
  no_upper t = true -> (lower s =? t) = caseless_eq s t.
Proof.
  induction s as [|a s IH]; intros [|b t] Ht; simpl; try reflexivity.
  simpl in Ht. apply andb_prop in Ht as [Hb Ht].
  apply negb_true_iff in Hb.
  rewrite (lower_ascii_same_letter a b Hb), (IH t Ht).
  now destruct (same_letter a b).
Qed.

Lemma lower_completed s :
  (lower s =? "completed") = caseless_eq s "completed".
Proof. apply lower_caseless. reflexivity. Qed.

(** *** Running a handler by hand *)

Ltac unfold_ops :=
  unfold get_db, serve, route, create_task, get_tasks, update_task,
    delete_task, try_except_Exception, db_commit, flush, publish, db_refresh,
    db_add, db_delete, new_Task, alloc, assign, deref, return_obj, obj_setattr,
    all, first, store_call, logger_error, set_heap, set_txn, gets, raise, bind,
    ret, SessionLocal in *.

Ltac exec := unfold_ops; cbn -[lower String.eqb select filter_ db_query_Task].

(* ================================================================= *)
(** ** Rules for triples *)

Section Rules.
Context {A B : Type}.

Lemma triple_ret (P : St -> Prop) (a : A) (Q : A -> St -> Prop) E :
  (forall s, P s -> Q a s) -> triple P (ret a) Q E.
Proof. intros H s Hs. now apply H. Qed.

Lemma triple_raise (P : St -> Prop) e (Q : A -> St -> Prop) (E : St -> Prop) :
  (forall s, P s -> E s) -> triple P (raise e) Q E.
Proof. intros H s Hs. now apply H. Qed.

Lemma triple_bind P (c : M A) (k : A -> M B) R Q E :
  triple P c R E -> (forall a, triple (R a) (k a) Q E) ->
  triple P (bind c k) Q E.
Proof.
  intros Hc Hk s Hs. unfold bind. specialize (Hc s Hs).
  destruct (c s) as [[a|e] s']; [now apply Hk | exact Hc].
Qed.

Lemma triple_try P (body : M A) handler Q E' E :
  triple P body Q E' -> (forall e, triple E' (handler e) Q E) ->
  triple P (try_except_Exception body handler) Q E.
Proof.
  intros Hb Hh s Hs. unfold try_except_Exception. specialize (Hb s Hs).
  destruct (body s) as [[a|e] s']; [exact Hb | now apply Hh].
Qed.

Lemma triple_conseq (P P' : St -> Prop) (c : M A) (Q Q' : A -> St -> Prop)
  (E E' : St -> Prop) :
  triple P' c Q' E' ->
  (forall s, P s -> P' s) -> (forall a s, Q' a s -> Q a s) ->
  (forall s, E' s -> E s) ->
  triple P c Q E.
Proof.
  intros Hc HP HQ HE s Hs. specialize (Hc s (HP s Hs)).
  destruct (c s) as [[a|e] s']; auto.
Qed.

End Rules.

Lemma triple_for_each {A} (I : St -> Prop) (l : list A) body :
  (forall x, triple I (body x) (fun _ => I) I) ->
  triple I (for_each l body) (fun _ => I) I.
Proof.
  intros Hb. induction l as [|x l IH]; simpl.
  - now apply triple_ret.
  - eapply triple_bind; [apply Hb | intros ?; exact IH].
Qed.

(* ================================================================= *)
(** ** The invariant under the operations of the session *)

Lemma has_id_true pk r : has_id pk r = true <-> Row.id r = pk.
Proof. unfold has_id. apply Z.eqb_eq. Qed.

Lemma not_null_ok_true r : not_null_ok r = true.
Proof. destruct r as [i t d c k]. now destruct t, d, c, k. Qed.

Lemma map_id_update pk o rows :
  map Row.id (map (fun r' => if has_id pk r' then Task.store pk o else r') rows)
  = map Row.id rows.
Proof.
  induction rows as [|r rows IH]; simpl; [reflexivity|]. rewrite IH. f_equal.
  destruct (has_id pk r) eqn:E; [|reflexivity].
  apply has_id_true in E. now rewrite E.
Qed.

Lemma NoDup_map_filter {X Y} (f : X -> Y) (g : X -> bool) l :
  NoDup (map f l) -> NoDup (map f (filter g l)).
Proof.
  induction l as [|x l IH]; simpl; intros H; [constructor|].
  inversion H as [|? ? Hx Hl]; subst.
  destruct (g x); simpl; [constructor|]; auto.
  intros Hin. apply Hx. apply in_map_iff in Hin as [y [Hy Hin]].
  apply in_map_iff. exists y. split; [exact Hy|].
  now apply filter_In in Hin.
Qed.

Section Invariant.
Variable n0 : Z.
Variable dead : Z -> Prop.
Hypothesis n0_pos : 1 <= n0.

Lemma id_fine_mono n n' k : n <= n' -> id_fine n dead k -> id_fine n' dead k.
Proof. unfold id_fine. intuition lia. Qed.

Lemma rows_fine_mono n n' rows :
  n <= n' -> rows_fine n dead rows -> rows_fine n' dead rows.
Proof.
  intros Hn [Hnd Hall]. split; [exact Hnd|].
  eapply Forall_impl; [|exact Hall]. intros r. now apply id_fine_mono.
Qed.

Lemma task_fine_mono n n' t :
  n <= n' -> task_fine n dead t -> task_fine n' dead t.
Proof.
  unfold task_fine. intros Hn. destruct (Task.id t); [|trivial].
  now apply id_fine_mono.
Qed.

Lemma heap_fine_mono n n' h :
  n <= n' -> heap_fine n dead h -> heap_fine n' dead h.
Proof.
  intros Hn. apply Forall_impl. intros i. now apply task_fine_mono.
Qed.

Lemma rows_fine_fresh n rows : rows_fine n dead rows -> ~ In n (map Row.id rows).
Proof.
  intros [_ Hall] Hin. apply in_map_iff in Hin as [r [Hr Hin]].
  rewrite Forall_forall in Hall. destruct (Hall r Hin) as [Hb _]. lia.
Qed.

Lemma rows_fine_insert n pk o rows :
  rows_fine n dead rows -> id_fine n dead pk -> ~ In pk (map Row.id rows) ->
  rows_fine n dead (rows ++ [Task.store pk o]).
Proof.
  intros [Hnd Hall] Hpk Hnew. split.
  - rewrite map_app; simpl. apply NoDup_app; [exact Hnd | | ].
    + constructor; [intros [] | constructor].
    + intros x Hx [<-|[]]. now apply Hnew.
  - apply Forall_app. split; [exact Hall|]. now constructor.
Qed.

Lemma rows_fine_update n pk o rows :
  rows_fine n dead rows ->
  rows_fine n dead
    (map (fun r' => if has_id pk r' then Task.store pk o else r') rows).
Proof.
  intros [Hnd Hall]. split.
  - now rewrite map_id_update.
  - rewrite Forall_forall in *. intros r Hin.
    apply in_map_iff in Hin as [r' [<- Hin]].
    destruct (has_id pk r') eqn:E; [|now apply Hall].
    apply has_id_true in E. simpl. rewrite <- E. now apply Hall.
Qed.

Lemma rows_fine_delete n pk rows :
  rows_fine n dead rows ->
  rows_fine n dead (filter (fun r' => negb (has_id pk r')) rows).
Proof.
  intros [Hnd Hall]. split.
  - now apply NoDup_map_filter.
  - rewrite Forall_forall in *. intros r Hin.
    apply filter_In in Hin as [Hin _]. now apply Hall.
Qed.

Lemma rows_fine_select n q rows r :
  rows_fine n dead rows -> In r (select q rows) -> id_fine n dead (Row.id r).
Proof.
  intros [_ Hall] Hin. apply filter_In in Hin as [Hin _].
  rewrite Forall_forall in Hall. now apply Hall.
Qed.

Lemma heap_fine_nth n h x : heap_fine n dead h -> task_fine n dead (attrs (nth x h dummy)).
Proof.
  intros Hh. destruct (nth_in_or_default x h dummy) as [Hin | ->].
  - unfold heap_fine in Hh. rewrite Forall_forall in Hh. now apply Hh.
  - exact I.
Qed.

Lemma heap_fine_set n h x i :
  heap_fine n dead h -> task_fine n dead (attrs i) ->
  heap_fine n dead (list_set h x i).
Proof.
  unfold heap_fine. intros Hh Hi. revert x.
  induction Hh as [|j h Hj Hh IH]; intros x; simpl.
  - constructor.
  - destruct x; constructor; auto.
Qed.

Lemma heap_fine_snoc n h i :
  heap_fine n dead h -> task_fine n dead (attrs i) ->
  heap_fine n dead (h ++ [i]).
Proof.
  intros Hh Hi. apply Forall_app. split; [exact Hh | now constructor].
Qed.

(** *** Each operation keeps the invariant *)

Abbreviation Iv := (Inv n0 dead).
Abbreviation seq_of s := (tasks_id_seq (world s)).

Ltac open_inv H := destruct H as (Hn & Hd & Hw & Ht & Hh).
Ltac split_inv :=
  unfold Inv; cbn; refine (conj _ (conj _ (conj _ (conj _ _)))).

Lemma logger_error_inv prefix e :
  triple Iv (logger_error prefix e) (fun _ => Iv) Iv.
Proof. intros s Hs. exact Hs. Qed.

Lemma store_call_inv : triple Iv store_call (fun _ => Iv) Iv.
Proof.
  intros s Hs. unfold store_call.
  destruct (faults s) as [|[msg|] fs]; exact Hs.
Qed.

Lemma nextval_spec :
  triple Iv nextval
    (fun pk s => Iv s /\ id_fine (seq_of s) dead pk
                 /\ ~ In pk (map Row.id (txn s)))
    Iv.
Proof.
  intros s Hs. unfold nextval.
  destruct (tasks_id_seq (world s) >? INT4_MAX); [exact Hs|].
  open_inv Hs.
  assert (Hle : seq_of s <= seq_of s + 1) by lia.
  split; [split_inv | split].
  - lia.
  - intros k Hk. specialize (Hd k Hk). lia.
  - now apply rows_fine_mono with (n := seq_of s).
  - now apply rows_fine_mono with (n := seq_of s).
  - now apply heap_fine_mono with (n := seq_of s).
  - cbn. split; [lia|]. intros Hk. specialize (Hd _ Hk). lia.
  - cbn. now apply rows_fine_fresh with (n := seq_of s).
Qed.

Lemma sql_insert_spec o :
  triple Iv (sql_insert o) (fun pk s => Iv s /\ id_fine (seq_of s) dead pk) Iv.
Proof.
  intros s Hs. unfold sql_insert, bind, gets.
  pose proof (nextval_spec s Hs) as Hnv.
  destruct (nextval s) as [[pk|e] s1]; [|exact Hnv].
  destruct Hnv as (Hs1 & Hpk & Hnew).
  destruct (existsb (has_id pk) (txn s1)); [exact Hs1|].
  rewrite not_null_ok_true. cbn.
  open_inv Hs1. split; [split_inv | exact Hpk]; try assumption.
  now apply rows_fine_insert.
Qed.

Lemma sql_update_inv pk o : triple Iv (sql_update pk o) (fun _ => Iv) Iv.
Proof.
  intros s Hs. unfold sql_update, bind, gets. rewrite not_null_ok_true. cbn.
  open_inv Hs. split_inv; try assumption.
  now apply rows_fine_update.
Qed.

Lemma sql_delete_inv pk : triple Iv (sql_delete pk) (fun _ => Iv) Iv.
Proof.
  intros s Hs. unfold sql_delete, bind, gets. cbn.
  open_inv Hs. split_inv; try assumption.
  now apply rows_fine_delete.
Qed.

End Invariant.

Abbreviation seq_of s := (tasks_id_seq (world s)).

Lemma Inv_self n0 dead s :
  1 <= n0 -> Inv n0 dead s -> 1 <= seq_of s /\ Inv (seq_of s) dead s.
Proof.
  intros Hn0 (Hn & Hrest). split; [lia|]. split; [lia | exact Hrest].
Qed.

Lemma Inv_seq n0 dead s : Inv n0 dead s -> n0 <= seq_of s.
Proof. now intros (Hn & _). Qed.

(** A fact that only improves as the sequence advances survives any
    computation that keeps the invariant. *)
Lemma triple_frame {A} dead (P0 : St -> Prop) (F : Z -> Prop) (c : M A)
  (G : A -> St -> Prop) n0 :
  (forall n n', n <= n' -> F n -> F n') ->
  1 <= n0 ->
  (forall n, 1 <= n ->
     triple (fun s => Inv n dead s /\ P0 s) c
       (fun a s => Inv n dead s /\ G a s) (Inv n dead)) ->
  triple (fun s => Inv n0 dead s /\ P0 s /\ F (seq_of s)) c
    (fun a s => Inv n0 dead s /\ G a s /\ F (seq_of s)) (Inv n0 dead).
Proof.
  intros Hmono Hn0 Hc s (Hs & HP & HF).
  destruct (Inv_self _ _ _ Hn0 Hs) as [H1 Hself].
  pose proof (Hc n0 Hn0 s (conj Hs HP)) as Ha.
  pose proof (Hc _ H1 s (conj Hself HP)) as Hb.
  destruct (c s) as [[a|e] s']; [|exact Ha].
  destruct Ha as [Ha HG]. destruct Hb as [Hb _].
  split; [exact Ha | split; [exact HG|]].
  eapply Hmono; [apply (Inv_seq _ _ _ Hb) | exact HF].
Qed.

Lemma triple_frame_inv {A} dead (F : Z -> Prop) (c : M A) n0 :
  (forall n n', n <= n' -> F n -> F n') ->
  1 <= n0 ->
  (forall n, 1 <= n -> triple (Inv n dead) c (fun _ => Inv n dead) (Inv n dead)) ->
  triple (fun s => Inv n0 dead s /\ F (seq_of s)) c
    (fun _ s => Inv n0 dead s /\ F (seq_of s)) (Inv n0 dead).
Proof.
  intros Hmono Hn0 Hc.
  eapply triple_conseq.
  - apply (triple_frame dead (fun _ => True) F c (fun _ _ => True) n0 Hmono Hn0).
    intros n Hn. eapply triple_conseq; [apply (Hc n Hn) | | | ]; cbn; intuition.
  - cbn. intuition.
  - cbn. intuition.
  - auto.
Qed.

Lemma flush_instance_inv dead i n0 :
  1 <= n0 ->
  triple (fun s => Inv n0 dead s /\ task_fine (seq_of s) dead (attrs i))
    (flush_instance i)
    (fun i' s' => Inv n0 dead s' /\ task_fine (seq_of s') dead (attrs i'))
    (Inv n0 dead).
Proof.
  intros Hn0. unfold flush_instance.
  assert (Hins : triple
            (fun s => Inv n0 dead s /\ task_fine (seq_of s) dead (attrs i))
            (pk <- sql_insert (attrs i) ;;
             ret (mkInstance Persistent false
                    (Task.mk (Some pk) (Task.title (attrs i))
                       (Task.description (attrs i)) (Task.completed (attrs i))
                       (Task.color (attrs i)))))
            (fun i' s' => Inv n0 dead s' /\ task_fine (seq_of s') dead (attrs i'))
            (Inv n0 dead)).
  { eapply triple_bind.
    - eapply triple_conseq; [apply (sql_insert_spec n0 dead Hn0) | | | ].
      + cbn. intros s [Hs _]. exact Hs.
      + intros a s H. exact H.
      + auto.
    - intros k. apply triple_ret. cbn beta. intros s [Hs Hk].
      split; [exact Hs | exact Hk]. }
  assert (Hfr : forall c : M unit,
            (forall n, 1 <= n ->
               triple (Inv n dead) c (fun _ => Inv n dead) (Inv n dead)) ->
            forall j,
            attrs j = attrs i ->
            triple
              (fun s => Inv n0 dead s /\ task_fine (seq_of s) dead (attrs i))
              (c ;; ret j)
              (fun i' s' =>
                 Inv n0 dead s' /\ task_fine (seq_of s') dead (attrs i'))
              (Inv n0 dead)).
  { intros c Hc j Hj. eapply triple_bind.
    - apply (triple_frame_inv dead (fun n => task_fine n dead (attrs i)) c n0);
        [intros n n'; apply task_fine_mono | exact Hn0 | exact Hc].
    - intros ?. apply triple_ret. cbn beta. intros s [Hs Hi].
      split; [exact Hs|]. now rewrite Hj. }
  destruct (state i), (Task.id (attrs i)) as [pk|] eqn:Eid;
    try (apply triple_ret; intros s Hs; exact Hs); try exact Hins.
  - destruct (modified i); [|apply triple_ret; intros s Hs; exact Hs].
    apply Hfr; [intros n Hn; now apply sql_update_inv | reflexivity].
  - apply Hfr; [intros n Hn; now apply sql_delete_inv | reflexivity].
Qed.

Lemma flush_all_inv dead l : forall n0,
  1 <= n0 ->
  triple (fun s => Inv n0 dead s /\ heap_fine (seq_of s) dead l)
    (flush_all l)
    (fun l' s' => Inv n0 dead s' /\ heap_fine (seq_of s') dead l')
    (Inv n0 dead).
Proof.
  induction l as [|i l IH]; intros n0 Hn0; simpl.
  - apply triple_ret. intros s [Hs _]. split; [exact Hs | constructor].
  - eapply triple_bind.
    + eapply triple_conseq.
      * apply (triple_frame dead
                 (fun s => task_fine (seq_of s) dead (attrs i))
                 (fun n => heap_fine n dead l)
                 (flush_instance i)
                 (fun i' s => task_fine (seq_of s) dead (attrs i')) n0).
        -- intros n n'. apply heap_fine_mono.
        -- exact Hn0.
        -- intros n Hn. now apply flush_instance_inv.
      * cbn. intros s [Hs Hil]. inversion Hil; subst. auto.
      * intros a s H. exact H.
      * auto.
    + intros i'. eapply triple_bind.
      * eapply triple_conseq.
        -- apply (triple_frame dead
                    (fun s => heap_fine (seq_of s) dead l)
                    (fun n => task_fine n dead (attrs i'))
                    (flush_all l)
                    (fun l' s => heap_fine (seq_of s) dead l') n0).
           ++ intros n n'. apply task_fine_mono.
           ++ exact Hn0.
           ++ intros n Hn. now apply IH.
        -- cbn. intuition.
        -- intros a s H. exact H.
        -- auto.
      * intros l''. apply triple_ret. cbn beta. intros s (Hs & Hl & Hi).
        split; [exact Hs | now constructor].
Qed.

Section Session.
Variable n0 : Z.
Variable dead : Z -> Prop.
Hypothesis n0_pos : 1 <= n0.

Abbreviation Iv := (Inv n0 dead).

Ltac open_inv H := destruct H as (Hn & Hd & Hw & Ht & Hh).
Ltac split_inv :=
  unfold Inv; cbn; refine (conj _ (conj _ (conj _ (conj _ _)))).

Lemma flush_inv : triple Iv flush (fun _ => Iv) Iv.
Proof.
  unfold flush.
  eapply triple_bind; [apply store_call_inv | intros ?].
  intros s Hs. unfold bind, gets, set_heap.
  assert (Hpre : Iv s /\ heap_fine (seq_of s) dead (heap s)).
  { split; [exact Hs | apply Hs]. }
  pose proof (flush_all_inv dead (heap s) n0 n0_pos s Hpre) as H.
  destruct (flush_all (heap s) s) as [[h'|e] s']; [|exact H].
  destruct H as [Hs' Hh']. open_inv Hs'. split_inv; assumption.
Qed.

Lemma publish_inv : triple Iv publish (fun _ => Iv) Iv.
Proof.
  intros s Hs. unfold publish. open_inv Hs. split_inv; assumption.
Qed.

Lemma db_commit_inv : triple Iv db_commit (fun _ => Iv) Iv.
Proof.
  unfold db_commit.
  eapply triple_bind; [apply flush_inv | intros ?].
  eapply triple_bind; [apply store_call_inv | intros ?].
  apply publish_inv.
Qed.

Lemma alloc_inv i :
  task_fine 0 dead (attrs i) -> triple Iv (alloc i) (fun _ => Iv) Iv.
Proof.
  intros Hi s Hs. unfold alloc, bind, gets, set_heap, ret. cbn.
  open_inv Hs. split_inv; try assumption.
  apply heap_fine_snoc; [exact Hh|].
  eapply task_fine_mono; [|exact Hi]. lia.
Qed.

Lemma new_Task_inv title description color completed :
  triple Iv (new_Task title description color completed) (fun _ => Iv) Iv.
Proof. apply alloc_inv. exact I. Qed.

(** Replacing a tracked instance by one with the same primary key. *)
Lemma assign_same_id s x i :
  Iv s -> Task.id (attrs i) = Task.id (attrs (nth x (heap s) dummy)) ->
  Iv (mkSt (world s) (txn s) (list_set (heap s) x i) (faults s)).
Proof.
  intros Hs Hid. open_inv Hs. split_inv; try assumption.
  apply heap_fine_set; [exact Hh|].
  pose proof (heap_fine_nth dead _ _ x Hh) as Hx.
  unfold task_fine in *. now rewrite Hid.
Qed.

Lemma db_add_inv x : triple Iv (db_add x) (fun _ => Iv) Iv.
Proof.
  intros s Hs. unfold db_add, bind, deref, gets, assign, set_heap, ret. cbn.
  destruct (state (nth x (heap s) dummy)); try exact Hs.
  now apply assign_same_id.
Qed.

Lemma db_delete_inv x : triple Iv (db_delete x) (fun _ => Iv) Iv.
Proof.
  intros s Hs.
  unfold db_delete, bind, deref, gets, assign, set_heap, ret, raise. cbn.
  destruct (state (nth x (heap s) dummy)); try exact Hs.
  now apply assign_same_id.
Qed.

Lemma obj_setattr_inv x kv : triple Iv (obj_setattr x kv) (fun _ => Iv) Iv.
Proof.
  intros s Hs. unfold obj_setattr, bind, deref, gets, assign, set_heap. cbn.
  apply assign_same_id; [exact Hs|]. now destruct kv.
Qed.

Lemma db_refresh_inv x : triple Iv (db_refresh x) (fun _ => Iv) Iv.
Proof.
  unfold db_refresh.
  eapply triple_bind; [apply store_call_inv | intros ?].
  intros s Hs. unfold bind, deref, gets, assign, set_heap, raise. cbn.
  destruct (state (nth x (heap s) dummy)); try exact Hs.
  destruct (Task.id (attrs (nth x (heap s) dummy))) as [pk|]; [|exact Hs].
  destruct (find (has_id pk) (txn s)) as [r|] eqn:Ef; [|exact Hs].
  apply find_some in Ef as [Hin _].
  open_inv Hs. split_inv; try assumption.
  apply heap_fine_set; [exact Hh|].
  destruct Ht as [_ Hall]. rewrite Forall_forall in Hall. now apply Hall.
Qed.

Lemma return_obj_spec x :
  triple Iv (return_obj x)
    (fun t s => Iv s /\ task_fine (seq_of s) dead t) Iv.
Proof.
  intros s Hs. unfold return_obj, bind, deref, gets, ret. cbn.
  split; [exact Hs|]. apply heap_fine_nth. apply Hs.
Qed.

Lemma all_spec q :
  triple Iv (all q)
    (fun l s => Iv s /\ Forall (task_fine (seq_of s) dead) l) Iv.
Proof.
  unfold all.
  eapply triple_bind; [apply store_call_inv | intros ?].
  intros s Hs. unfold bind, gets, ret. cbn.
  split; [exact Hs|]. apply Forall_forall. intros t Hin.
  apply in_map_iff in Hin as [r [<- Hin]].
  open_inv Hs. exact (rows_fine_select dead _ q _ r Ht Hin).
Qed.

Lemma first_inv q : triple Iv (first q) (fun _ => Iv) Iv.
Proof.
  unfold first.
  eapply triple_bind; [apply store_call_inv | intros ?].
  intros s Hs. unfold bind at 1. unfold gets at 1.
  destruct (select q (txn s)) as [|r rest] eqn:Es.
  - exact Hs.
  - assert (Hr : task_fine (seq_of s) dead (Task.load r)).
    { open_inv Hs. apply (rows_fine_select dead _ q _ r Ht).
      rewrite Es. now left. }
    unfold bind, alloc, gets, set_heap, ret. cbn.
    open_inv Hs. split_inv; try assumption.
    now apply heap_fine_snoc.
Qed.

End Session.

(* ================================================================= *)
(** ** The invariant under the handlers *)

Section Handlers.
Variable n0 : Z.
Variable dead : Z -> Prop.
Hypothesis n0_pos : 1 <= n0.

Abbreviation Iv := (Inv n0 dead).

Ltac hstep L :=
  eapply triple_bind; [apply L; try assumption | intros ?; cbn beta].

Lemma except_inv {A} prefix (Q : A -> St -> Prop) e :
  triple Iv
    (logger_error prefix e ;; raise (HTTPException 500 "Internal server error"))
    Q Iv.
Proof.
  hstep logger_error_inv. apply triple_raise. auto.
Qed.

Lemma create_task_spec task :
  triple Iv (create_task task)
    (fun t s => Iv s /\ task_fine (seq_of s) dead t) Iv.
Proof.
  unfold create_task.
  eapply triple_try; [|intros e; apply except_inv].
  hstep new_Task_inv. hstep db_add_inv. hstep db_commit_inv.
  hstep db_refresh_inv. now apply return_obj_spec.
Qed.

Lemma get_tasks_spec status :
  triple Iv (get_tasks status)
    (fun l s => Iv s /\ Forall (task_fine (seq_of s) dead) l) Iv.
Proof.
  unfold get_tasks.
  eapply triple_try; [|intros e; apply except_inv].
  eapply triple_bind.
  - destruct status as [[|a status]|]; now apply all_spec.
  - intros l. apply triple_ret. auto.
Qed.

Lemma update_task_spec task_id task :
  triple Iv (update_task task_id task)
    (fun t s => Iv s /\ task_fine (seq_of s) dead t) Iv.
Proof.
  unfold update_task.
  eapply triple_try; [|intros e; apply except_inv].
  hstep first_inv.
  destruct a as [db_task|]; [|apply triple_raise; auto].
  eapply triple_bind.
  - apply triple_for_each. intros kv. now apply obj_setattr_inv.
  - intros ?. cbn beta. hstep db_commit_inv. hstep db_refresh_inv.
    now apply return_obj_spec.
Qed.

Lemma delete_task_inv task_id :
  triple Iv (delete_task task_id) (fun _ => Iv) Iv.
Proof.
  unfold delete_task.
  eapply triple_try; [|intros e; apply except_inv].
  hstep first_inv.
  destruct a as [db_task|]; [|apply triple_raise; auto].
  hstep db_delete_inv. hstep db_commit_inv. apply triple_ret. auto.
Qed.

Lemma task_fine_shown n t :
  task_fine n dead t ->
  Forall (id_fine n dead) (match Task.id t with Some k => [k] | None => [] end).
Proof.
  unfold task_fine. destruct (Task.id t); intros H; constructor;
    [exact H | constructor].
Qed.

Lemma route_spec r :
  triple Iv (route r)
    (fun c s => Iv s /\ Forall (id_fine (seq_of s) dead) (shown_ids (Return c)))
    Iv.
Proof.
  destruct r as [body|status|task_id task|task_id]; unfold route.
  - eapply triple_bind; [apply create_task_spec | intros t].
    apply triple_ret. cbn beta. intros s [Hs Ht]. split; [exact Hs|].
    now apply task_fine_shown.
  - eapply triple_bind; [apply get_tasks_spec | intros l].
    apply triple_ret. cbn beta. intros s [Hs Hl]. split; [exact Hs|].
    simpl. induction Hl as [|t l Ht Hl IH]; simpl; [constructor|].
    apply Forall_app. split; [now apply task_fine_shown | exact IH].
  - eapply triple_bind; [apply update_task_spec | intros t].
    apply triple_ret. cbn beta. intros s [Hs Ht]. split; [exact Hs|].
    now apply task_fine_shown.
  - eapply triple_bind; [apply delete_task_inv | intros d].
    apply triple_ret. cbn beta. intros s Hs. split; [exact Hs | constructor].
Qed.

(** One request keeps the world fine, and shows only fine ids. *)
Lemma serve_fine r fs w :
  world_fine n0 dead w ->
  world_fine n0 dead (snd (serve r fs w))
  /\ Forall (id_fine (tasks_id_seq (snd (serve r fs w))) dead)
       (shown_ids (fst (serve r fs w))).
Proof.
  intros (Hn & Hd & Hw). unfold serve, get_db.
  assert (Hs : Iv (SessionLocal w fs)).
  { unfold Inv, SessionLocal; cbn. repeat split; try assumption; try apply Hw.
    constructor. }
  pose proof (route_spec r _ Hs) as H.
  destruct (route r (SessionLocal w fs)) as [[c|e] s']; cbn.
  - destruct H as [(Hn' & Hd' & Hw' & _) Hshown]. repeat split; try assumption;
      apply Hw'.
  - destruct H as (Hn' & Hd' & Hw' & _). repeat split; try assumption;
      try apply Hw'. constructor.
Qed.

End Handlers.

Lemma world_fine_self n0 dead w :
  1 <= n0 -> world_fine n0 dead w ->
  1 <= tasks_id_seq w /\ world_fine (tasks_id_seq w) dead w.
Proof.
  intros Hn0 (Hn & Hrest). split; [lia|]. split; [lia | exact Hrest].
Qed.

(** A whole history keeps the world fine; every id it showed stays below the
    sequence and is not dead. *)
Lemma run_fine dead history : forall n0 w,
  1 <= n0 -> world_fine n0 dead w ->
  world_fine n0 dead (snd (run w history))
  /\ Forall (id_fine (tasks_id_seq (snd (run w history))) dead)
       (flat_map shown_ids (fst (run w history))).
Proof.
  induction history as [|[r fs] rest IH]; intros n0 w Hn0 Hw; simpl.
  - split; [exact Hw | constructor].
  - destruct (serve_fine n0 dead Hn0 r fs w Hw) as [Hw1 Hshown].
    destruct (serve r fs w) as [resp w1]; simpl in *.
    destruct (world_fine_self _ _ _ Hn0 Hw1) as [H1 Hself].
    destruct (IH n0 w1 Hn0 Hw1) as [Hw2 Hrest].
    destruct (IH _ w1 H1 Hself) as [[Hmono _] _].
    destruct (run w1 rest) as [resps w2]; simpl in *.
    split; [exact Hw2|]. apply Forall_app. split; [|exact Hrest].
    eapply Forall_impl; [|exact Hshown].
    intros k [Hk Hdead]. split; [lia | exact Hdead].
Qed.

(* ================================================================= *)
(** ** What the handlers compute when the store does not fail *)

Lemma select_id task_id rows :
  select (filter_ db_query_Task (id_eq task_id)) rows
  = filter (has_id task_id) rows.
Proof. apply select_one. Qed.

Lemma find_filter {X} (f : X -> bool) l :
  find f l = match filter f l with [] => None | x :: _ => Some x end.
Proof.
  induction l as [|x l IH]; simpl; [reflexivity|].
  now destruct (f x).
Qed.

Lemma setattr_id o kv : Task.id (setattr o kv) = Task.id o.
Proof. now destruct kv. Qed.

Lemma fold_setattr_id items : forall o,
  Task.id (fold_left setattr items o) = Task.id o.
Proof.
  induction items as [|kv items IH]; intros o; simpl; [reflexivity|].
  now rewrite IH, setattr_id.
Qed.

(** The loop of [update_task] on the one instance the session tracks. *)
Lemma for_each_setattr items : forall w rows i fs,
  for_each items (fun kv => obj_setattr 0%nat kv) (mkSt w rows [i] fs)
  = (Return tt,
     mkSt w rows
       [mkInstance (state i)
          (match items with [] => modified i | _ => true end)
          (fold_left setattr items (attrs i))]
       fs).
Proof.
  induction items as [|kv items IH]; intros w rows i fs.
  - now destruct i.
  - cbn [for_each]. unfold bind at 1.
    unfold obj_setattr at 1, bind, deref, gets, assign, set_heap; cbn.
    rewrite IH; cbn. now destruct items.
Qed.

(** All that [dict(exclude_unset=True)] and the loop do to the attributes:
    a field that was set takes the value given, any other keeps its own. *)
Lemma fold_setattr_fields u o :
  fold_left setattr (TaskUpdate.dict_exclude_unset u) o
  = Task.mk (Task.id o)
      (match TaskUpdate.title u with Some v => v | None => Task.title o end)
      (match TaskUpdate.description u with
       | Some v => v | None => Task.description o end)
      (match TaskUpdate.completed u with
       | Some v => v | None => Task.completed o end)
      (match TaskUpdate.color u with Some v => v | None => Task.color o end).
Proof.
  destruct u as [[t|] [d|] [c|] [k|]], o; reflexivity.
Qed.

Lemma find_update_same pk rnew rows r :
  find (has_id pk) rows = Some r -> Row.id rnew = pk ->
  find (has_id pk) (map (fun r' => if has_id pk r' then rnew else r') rows)
  = Some rnew.
Proof.
  intros Hf Hnew. induction rows as [|x rows IH]; simpl in *; [discriminate|].
  destruct (has_id pk x) eqn:E.
  - assert (Hn : has_id pk rnew = true) by now apply has_id_true.
    now rewrite Hn.
  - rewrite E. now apply IH.
Qed.

Lemma find_update_other pk k rnew rows :
  k <> pk -> Row.id rnew = pk ->
  find (has_id k) (map (fun r' => if has_id pk r' then rnew else r') rows)
  = find (has_id k) rows.
Proof.
  intros Hk Hnew. induction rows as [|x rows IH]; simpl; [reflexivity|].
  destruct (has_id pk x) eqn:E.
  - apply has_id_true in E.
    assert (H1 : has_id k rnew = false).
    { unfold has_id. apply Z.eqb_neq. lia. }
    assert (H2 : has_id k x = false).
    { unfold has_id. apply Z.eqb_neq. lia. }
    now rewrite H1, H2.
  - now rewrite IH.
Qed.

Lemma find_has_id pk rows r : find (has_id pk) rows = Some r -> Row.id r = pk.
Proof. intros H. apply find_some in H as [_ H]. now apply has_id_true. Qed.

Lemma find_app_new pk rows r :
  existsb (has_id pk) rows = false -> Row.id r = pk ->
  find (has_id pk) (rows ++ [r]) = Some r.
Proof.
  intros He Hr. induction rows as [|x rows IH]; simpl in *.
  - apply has_id_true in Hr. now rewrite Hr.
  - apply orb_false_elim in He as [Hx He]. rewrite Hx. now apply IH.
Qed.

Lemma load_store pk o : Task.id o = Some pk -> Task.load (Task.store pk o) = o.
Proof. destruct o as [i t d c k]; simpl. now intros ->. Qed.

Ltac run_ops :=
  unfold db_commit, flush, publish, db_refresh, db_add, db_delete, new_Task,
    return_obj, obj_setattr, alloc, assign, deref, store_call, logger_error,
    set_heap, set_txn, gets, raise, bind, ret;
  cbn -[for_each fold_left TaskUpdate.dict_exclude_unset select filter_
        db_query_Task lower String.eqb not_null_ok].

(** [update_task] on a row that exists, with no store failure. *)
Lemma update_task_ok w task_id u r :
  lookup task_id w = Some r ->
  let items := TaskUpdate.dict_exclude_unset u in
  let t' := fold_left setattr items (Task.load r) in
  get_db (update_task task_id u) [] w
  = (Return t',
     mkWorld
       (match items with
        | [] => tasks w
        | _ =>
            map (fun r' => if has_id task_id r' then Task.store task_id t' else r')
                (tasks w)
        end)
       (tasks_id_seq w) (log w)).
Proof.
  intros Hl items t'. unfold lookup in Hl.
  pose proof (find_has_id _ _ _ Hl) as Hid.
  pose proof Hl as Hf. rewrite find_filter in Hl.
  unfold get_db, update_task, try_except_Exception, SessionLocal.
  unfold bind at 1. unfold first. run_ops. rewrite select_id.
  destruct (filter (has_id task_id) (tasks w)) as [|r' rest] eqn:Ef;
    [discriminate|].
  injection Hl as ->. run_ops. rewrite for_each_setattr. run_ops.
  unfold flush_instance, sql_update. run_ops.
  rewrite fold_setattr_id. cbn [Task.load Task.id].
  fold items. fold t'. rewrite Hid.
  assert (Ht' : Task.id t' = Some task_id).
  { unfold t'. rewrite fold_setattr_id. simpl. now rewrite Hid. }
  destruct items as [|kv items'] eqn:Eitems.
  - subst t'. cbn [fold_left] in *. run_ops. rewrite ?Hid, Hf. reflexivity.
  - rewrite not_null_ok_true. run_ops. fold t'. rewrite Ht'.
    rewrite (find_update_same _ _ _ _ Hf) by reflexivity.
    run_ops. now rewrite load_store.
Qed.

(** [delete_task] on a row that exists, with no store failure. *)
Lemma delete_task_ok w task_id r :
  lookup task_id w = Some r ->
  get_db (delete_task task_id) [] w
  = (Return [("message", "Task deleted successfully")],
     mkWorld (filter (fun r' => negb (has_id task_id r')) (tasks w))
       (tasks_id_seq w) (log w)).
Proof.
  intros Hl. unfold lookup in Hl.
  pose proof (find_has_id _ _ _ Hl) as Hid. rewrite find_filter in Hl.
  unfold get_db, delete_task, try_except_Exception, SessionLocal.
  unfold bind at 1. unfold first. run_ops. rewrite select_id.
  destruct (filter (has_id task_id) (tasks w)) as [|r' rest] eqn:Ef;
    [discriminate|].
  injection Hl as ->. run_ops. unfold flush_instance, sql_delete. run_ops.
  now rewrite Hid.
Qed.

(** [update_task] and [delete_task] on a row that does not exist: the 404
    raised inside [try] is caught by [except Exception] and replaced. *)
Lemma update_task_missing w task_id u :
  lookup task_id w = None ->
  get_db (update_task task_id u) [] w
  = (Raise (HTTPException 500 "Internal server error"),
     mkWorld (tasks w) (tasks_id_seq w)
       (log w ++ [("Error updating task: ",
                   HTTPException 404 "Task not found")])).
Proof.
  intros Hl. unfold lookup in Hl. rewrite find_filter in Hl.
  unfold get_db, update_task, try_except_Exception, SessionLocal.
  unfold bind at 1. unfold first. run_ops. rewrite select_id.
  destruct (filter (has_id task_id) (tasks w)) as [|r' rest] eqn:Ef;
    [|discriminate].
  reflexivity.
Qed.

Lemma delete_task_missing w task_id :
  lookup task_id w = None ->
  get_db (delete_task task_id) [] w
  = (Raise (HTTPException 500 "Internal server error"),
     mkWorld (tasks w) (tasks_id_seq w)
       (log w ++ [("Error deleting task: ",
                   HTTPException 404 "Task not found")])).
Proof.
  intros Hl. unfold lookup in Hl. rewrite find_filter in Hl.
  unfold get_db, delete_task, try_except_Exception, SessionLocal.
  unfold bind at 1. unfold first. run_ops. rewrite select_id.
  destruct (filter (has_id task_id) (tasks w)) as [|r' rest] eqn:Ef;
    [|discriminate].
  reflexivity.
Qed.

(** [create_task] with no store failure, while the sequence lasts. *)
Lemma create_task_ok w task :
  tasks_id_seq w <= INT4_MAX ->
  existsb (has_id (tasks_id_seq w)) (tasks w) = false ->
  let pk := tasks_id_seq w in
  let t := Task.mk (Some pk) (Some (TaskCreate.title task))
             (Some (TaskCreate.description task))
             (Some (TaskCreate.completed task))
             (Some (TaskCreate.color task)) in
  get_db (create_task task) [] w
  = (Return t, mkWorld (tasks w ++ [Task.store pk t]) (pk + 1) (log w)).
Proof.
  intros Hmax Hnew pk t.
  unfold get_db, create_task, try_except_Exception, SessionLocal. run_ops.
  unfold flush_instance, sql_insert, nextval. run_ops.
  assert (Hgt : (tasks_id_seq w >? INT4_MAX) = false).
  { rewrite Z.gtb_ltb. apply Z.ltb_ge. exact Hmax. }
  rewrite Hgt. run_ops. rewrite Hnew. rewrite not_null_ok_true. run_ops.
  rewrite find_app_new by (exact Hnew || reflexivity).
  reflexivity.
Qed.

(* ================================================================= *)
(** ** Histories *)

Lemma run_app w h1 h2 :
  run w (h1 ++ h2)
  = (fst (run w h1) ++ fst (run (snd (run w h1)) h2),
     snd (run (snd (run w h1)) h2)).
Proof.
  revert w. induction h1 as [|[r fs] h1 IH]; intros w; simpl.
  - now destruct (run w h2).
  - destruct (serve r fs w) as [resp w1]. rewrite IH.
    destruct (run w1 h1) as [resps w2]; simpl.
    now destruct (run w2 h2).
Qed.

Lemma empty_world_fine : world_fine 1 (fun _ => False) empty_world.
Proof.
  unfold world_fine, empty_world; simpl.
  split; [lia | split; [intros k [] | split; constructor]].
Qed.

Lemma world_fine_well_formed w :
  world_fine 1 (fun _ => False) w <-> well_formed w.
Proof.
  unfold world_fine, well_formed, rows_fine, id_fine, ids. split.
  - intros (Hn & _ & Hnd & Hall). repeat split; try assumption.
    apply Forall_map. eapply Forall_impl; [|exact Hall]. now intros r [H _].
  - intros (Hn & Hnd & Hall). repeat split; try assumption.
    + intros k [].
    + rewrite Forall_map in Hall.
      eapply Forall_impl; [|exact Hall]. intros r H. split; [exact H | tauto].
Qed.

(** Every history from the empty table ends in a well-formed one. *)
Lemma run_well_formed history : well_formed (snd (run empty_world history)).
Proof.
  apply world_fine_well_formed.
  apply (run_fine _ history 1 empty_world); [lia | apply empty_world_fine].
Qed.

Lemma well_formed_fresh w :
  well_formed w -> existsb (has_id (tasks_id_seq w)) (tasks w) = false.
Proof.
  intros (_ & _ & Hall). apply not_true_is_false. intros He.
  apply existsb_exists in He as [r [Hin Hr]]. apply has_id_true in Hr.
  unfold ids in Hall. rewrite Forall_map, Forall_forall in Hall.
  specialize (Hall r Hin). lia.
Qed.

(** The sequence never goes back. *)
Lemma run_seq_mono history w :
  well_formed w -> tasks_id_seq w <= tasks_id_seq (snd (run w history)).
Proof.
  intros Hw. apply world_fine_well_formed in Hw.
  destruct (world_fine_self _ _ _ (Z.le_refl 1) Hw) as [H1 Hself].
  now destruct (run_fine _ history _ w H1 Hself) as [[Hmono _] _].
Qed.

(** The next value of the sequence was never the key of a row, nor shown in
    a response, at any earlier point of the history. *)
Lemma next_id_never_used earlier later :
  let k := tasks_id_seq (snd (run empty_world (earlier ++ later))) in
  ~ In k (ids (snd (run empty_world earlier)))
  /\ ~ In k (flat_map shown_ids (fst (run empty_world earlier))).
Proof.
  intros k.
  pose proof (run_well_formed earlier) as Hwf.
  pose proof (run_seq_mono later _ Hwf) as Hmono.
  assert (Hk : tasks_id_seq (snd (run empty_world earlier)) <= k).
  { unfold k. rewrite run_app. exact Hmono. }
  destruct (run_fine (fun _ => False) earlier 1 empty_world (Z.le_refl 1)
              empty_world_fine) as [_ Hshown].
  destruct Hwf as (_ & _ & Hall). rewrite Forall_forall in Hall, Hshown.
  split; intros Hin.
  - specialize (Hall _ Hin). lia.
  - destruct (Hshown _ Hin) as [Hb _]. lia.
Qed.

Lemma lookup_In k w : In k (ids w) -> exists r, lookup k w = Some r.
Proof.
  unfold ids, lookup. intros Hin. apply in_map_iff in Hin as [r [Hr Hin]].
  destruct (find (has_id k) (tasks w)) as [r'|] eqn:Ef; [now exists r'|].
  exfalso. apply (find_none _ _ Ef) in Hin.
  apply has_id_true in Hr. congruence.
Qed.

Lemma world_eta w : mkWorld (tasks w) (tasks_id_seq w) (log w) = w.
Proof. now destruct w. Qed.

(* ================================================================= *)
(** ** Handlers under an arbitrary fault plan *)

(** Case analysis on the fault plan and on the checks of the store. *)
Ltac crunch :=
  repeat first
    [ discriminate
    | progress run_ops
    | progress (unfold flush_instance, sql_insert, sql_update, sql_delete,
                nextval)
    | rewrite not_null_ok_true
    | match goal with
      | |- context [match ?fs with [] => _ | _ :: _ => _ end] =>
          is_var fs; destruct fs as [|[?|] ?]
      | |- context [if ?b then _ else _] => destruct b eqn:?
      | |- context [match find ?f ?l with _ => _ end] =>
          destruct (find f l) eqn:?
      end ].

(** Whatever the faults, a task that [create_task] returns carries the value
    the sequence had when the request came in. *)
Lemma create_task_id fs w task t w' :
  get_db (create_task task) fs w = (Return t, w') ->
  Task.id t = Some (tasks_id_seq w).
Proof.
  unfold get_db, create_task, try_except_Exception, SessionLocal.
  crunch; intros [= <- <-]; simpl; f_equal; eapply find_has_id; eassumption.
Qed.

(** Whatever the faults, [update_task] leaves the primary keys of the table
    as they are. *)
Lemma update_task_keys fs w task_id u :
  ids (snd (get_db (update_task task_id u) fs w)) = ids w.
Proof.
  unfold get_db, update_task, try_except_Exception, SessionLocal.
  unfold bind at 1. unfold first.
  destruct fs as [|[m|] fs]; run_ops; try reflexivity.
  all: rewrite select_id;
    destruct (filter (has_id task_id) (tasks w)) as [|r rest] eqn:Ef;
    run_ops; try reflexivity.
  all: rewrite for_each_setattr.
  all: repeat first [progress crunch | rewrite fold_setattr_id].
  all: unfold ids; cbn [tasks]; rewrite ?map_id_update; reflexivity.
Qed.

(** A handler whose [except] clause raises [x] raises nothing else. *)
Lemma try_except_raises {A} (body : M A) prefix x s e :
  fst (try_except_Exception body
         (fun e => logger_error prefix e ;; raise x) s) = Raise e ->
  e = x.
Proof.
  unfold try_except_Exception. destruct (body s) as [[a|e'] s']; simpl.
  - discriminate.
  - now intros [= <-].
Qed.

Lemma bind_ret_raises {A B} (c : M A) (f : A -> B) s e :
  fst ((a <- c ;; ret (f a)) s) = Raise e -> fst (c s) = Raise e.
Proof.
  unfold bind, ret. destruct (c s) as [[a|e'] s']; simpl; intros H;
    [discriminate H | now injection H as ->].
Qed.

Lemma serve_raises r fs w e :
  fst (serve r fs w) = Raise e ->
  e = HTTPException 500 "Internal server error".
Proof.
  unfold serve, get_db. intros H.
  assert (H' : fst (route r (SessionLocal w fs)) = Raise e).
  { destruct (route r (SessionLocal w fs)). exact H. }
  clear H. destruct r; unfold route in H'; apply bind_ret_raises in H';
    eapply try_except_raises; exact H'.
Qed.

(** A failure of the first store call of a request. *)
Lemma serve_first_call_fails r msg fs w :
  serve r (Some msg :: fs) w
  = (Raise (HTTPException 500 "Internal server error"),
     mkWorld (tasks w) (tasks_id_seq w)
       (log w ++ [(log_prefix r, SQLAlchemyError msg)])).
Proof.
  destruct r as [body|[[|a status]|]|task_id task|task_id];
    unfold serve, get_db, route, create_task, get_tasks, update_task,
      delete_task, try_except_Exception, SessionLocal, all, first;
    run_ops; reflexivity.
Qed.

Lemma lookup_None k w : ~ In k (ids w) -> lookup k w = None.
Proof.
  intros Hn. unfold lookup.
  destruct (find (has_id k) (tasks w)) as [r|] eqn:Ef; [|reflexivity].
  exfalso. apply Hn. apply find_some in Ef as [Hin Hr].
  apply has_id_true in Hr. unfold ids. apply in_map_iff. now exists r.
Qed.

(** On an id that is not in the table both handlers end in the generic 500;
    the 404 they raised shows in the log only. *)
Lemma missing_id_outcome w task_id u :
  ~ In task_id (ids w) ->
  get_db (update_task task_id u) [] w
  = (Raise (HTTPException 500 "Internal server error"),
     mkWorld (tasks w) (tasks_id_seq w)
       (log w ++ [("Error updating task: ",
                   HTTPException 404 "Task not found")]))
  /\ get_db (delete_task task_id) [] w
     = (Raise (HTTPException 500 "Internal server error"),
        mkWorld (tasks w) (tasks_id_seq w)
          (log w ++ [("Error deleting task: ",
                      HTTPException 404 "Task not found")])).
Proof.
  intros Hn. apply lookup_None in Hn. split.
  - now apply update_task_missing.
  - now apply delete_task_missing.
Qed.

(* ================================================================= *)
(** ** A store failure always surfaces *)

Create HintDb silent.

Lemma silent_ret {A} (a : A) : silent (ret a).
Proof. intros s. reflexivity. Qed.

Lemma silent_raise {A} e : silent (@raise A e).
Proof. intros s. reflexivity. Qed.

Lemma silent_gets {A} (f : St -> A) : silent (gets f).
Proof. intros s. reflexivity. Qed.

Lemma silent_set_txn rows : silent (set_txn rows).
Proof. intros s. reflexivity. Qed.

Lemma silent_set_heap h : silent (set_heap h).
Proof. intros s. reflexivity. Qed.

Lemma silent_logger_error prefix e : silent (logger_error prefix e).
Proof. intros s. reflexivity. Qed.

Lemma silent_publish : silent publish.
Proof. intros s. reflexivity. Qed.

Lemma silent_nextval : silent nextval.
Proof.
  intros s. unfold nextval. now destruct (tasks_id_seq (world s) >? INT4_MAX).
Qed.

Lemma silent_bind {A B} (c : M A) (k : A -> M B) :
  silent c -> (forall a, silent (k a)) -> silent (bind c k).
Proof.
  intros Hc Hk s. unfold bind. specialize (Hc s).
  destruct (c s) as [[a|e] s']; simpl in *; [|exact Hc].
  now rewrite Hk.
Qed.

#[local] Hint Resolve silent_ret silent_raise silent_gets silent_set_txn
  silent_set_heap silent_logger_error silent_publish silent_nextval : silent.

Ltac silence :=
  repeat first
    [ solve [auto with silent]
    | progress cbv zeta
    | match goal with
      | |- silent (match ?x with _ => _ end) => destruct x
      | |- silent (if ?b then _ else _) => destruct b
      end
    | apply silent_bind; [|intros ?] ].

Lemma silent_sql_insert o : silent (sql_insert o).
Proof. unfold sql_insert. silence. Qed.

Lemma silent_sql_update pk o : silent (sql_update pk o).
Proof. unfold sql_update. silence. Qed.

Lemma silent_sql_delete pk : silent (sql_delete pk).
Proof. unfold sql_delete. silence. Qed.

#[local] Hint Resolve silent_sql_insert silent_sql_update silent_sql_delete
  : silent.

Lemma silent_flush_instance i : silent (flush_instance i).
Proof. unfold flush_instance. silence. Qed.

#[local] Hint Resolve silent_flush_instance : silent.

Lemma silent_flush_all l : silent (flush_all l).
Proof. induction l as [|i l IH]; simpl; silence. Qed.

Lemma silent_deref x : silent (deref x).
Proof. unfold deref. silence. Qed.

Lemma silent_assign x i : silent (assign x i).
Proof. unfold assign. silence. Qed.

Lemma silent_alloc i : silent (alloc i).
Proof. unfold alloc. silence. Qed.

#[local] Hint Resolve silent_flush_all silent_deref silent_assign silent_alloc
  : silent.

Lemma silent_new_Task title description color completed :
  silent (new_Task title description color completed).
Proof. unfold new_Task. silence. Qed.

Lemma silent_db_add x : silent (db_add x).
Proof. unfold db_add. silence. Qed.

Lemma silent_db_delete x : silent (db_delete x).
Proof. unfold db_delete. silence. Qed.

Lemma silent_obj_setattr x kv : silent (obj_setattr x kv).
Proof. unfold obj_setattr. silence. Qed.

Lemma silent_return_obj x : silent (return_obj x).
Proof. unfold return_obj. silence. Qed.

#[local] Hint Resolve silent_new_Task silent_db_add silent_db_delete
  silent_obj_setattr silent_return_obj : silent.

Lemma silent_for_each {A} (l : list A) body :
  (forall x, silent (body x)) -> silent (for_each l body).
Proof.
  intros Hb. induction l as [|x l IH]; simpl; [silence|].
  apply silent_bind; [apply Hb | intros ?; exact IH].
Qed.

Section Unfailed.
Variable fs : list (option string).

Abbreviation ok := (unfailed fs).
Abbreviation any := (fun _ : St => True).

Lemma silent_unfailed {A} (c : M A) :
  silent c -> triple ok c (fun _ => ok) any.
Proof.
  intros Hc s Hs. specialize (Hc s).
  destruct (c s) as [[a|e] s']; simpl in *; [|exact I].
  unfold unfailed in *. now rewrite Hc.
Qed.

Lemma store_call_unfailed : triple ok store_call (fun _ => ok) any.
Proof.
  intros s (consumed & Hfs & Hnone). unfold store_call.
  destruct (faults s) as [|[msg|] rest] eqn:Ef; [| exact I |].
  - exists consumed. now rewrite Ef.
  - exists (consumed ++ [None]). cbn [faults]. split.
    + now rewrite <- app_assoc.
    + apply Forall_app. split; [exact Hnone | now constructor].
Qed.

Ltac ustep L :=
  eapply triple_bind; [apply L | intros ?; cbn beta].
Ltac usilent := apply silent_unfailed; silence.

Lemma flush_unfailed : triple ok flush (fun _ => ok) any.
Proof.
  unfold flush. ustep store_call_unfailed. usilent.
Qed.

Lemma db_commit_unfailed : triple ok db_commit (fun _ => ok) any.
Proof.
  unfold db_commit. ustep flush_unfailed. ustep store_call_unfailed. usilent.
Qed.

Lemma db_refresh_unfailed x : triple ok (db_refresh x) (fun _ => ok) any.
Proof.
  unfold db_refresh. ustep store_call_unfailed. usilent.
Qed.

Lemma all_unfailed q : triple ok (all q) (fun _ => ok) any.
Proof. unfold all. ustep store_call_unfailed. usilent. Qed.

Lemma first_unfailed q : triple ok (first q) (fun _ => ok) any.
Proof. unfold first. ustep store_call_unfailed. usilent. Qed.

Lemma except_unfailed {A} prefix x :
  triple any (logger_error prefix x ;; @raise A (HTTPException 500 "Internal server error"))
    (fun _ => ok) any.
Proof.
  intros s _. unfold bind, logger_error, raise. exact I.
Qed.

Lemma route_unfailed r : triple ok (route r) (fun _ => ok) any.
Proof.
  destruct r as [body|status|task_id task|task_id]; unfold route.
  - eapply triple_bind; [|intros t; usilent].
    unfold create_task.
    eapply triple_try; [|intros e; apply except_unfailed].
    eapply triple_bind; [usilent | intros ?; cbn beta].
    eapply triple_bind; [usilent | intros ?; cbn beta].
    ustep db_commit_unfailed. ustep db_refresh_unfailed. usilent.
  - eapply triple_bind; [|intros t; usilent].
    unfold get_tasks.
    eapply triple_try; [|intros e; apply except_unfailed].
    eapply triple_bind; [|intros t; usilent].
    destruct status as [[|a status]|]; apply all_unfailed.
  - eapply triple_bind; [|intros t; usilent].
    unfold update_task.
    eapply triple_try; [|intros e; apply except_unfailed].
    ustep first_unfailed.
    destruct a as [db_task|]; [|apply triple_raise; auto].
    eapply triple_bind;
      [apply silent_unfailed, silent_for_each; auto with silent
      | intros ?; cbn beta].
    ustep db_commit_unfailed. ustep db_refresh_unfailed. usilent.
  - eapply triple_bind; [|intros t; usilent].
    unfold delete_task.
    eapply triple_try; [|intros e; apply except_unfailed].
    ustep first_unfailed.
    destruct a as [db_task|]; [|apply triple_raise; auto].
    eapply triple_bind; [usilent | intros ?; cbn beta].
    ustep db_commit_unfailed. usilent.
Qed.

End Unfailed.

(** A request that went through a failing store call does not return. *)
Lemma failure_surfaces r fs w msg :
  In (Some msg) (consumed_faults r fs w) ->
  fst (serve r fs w) = Raise (HTTPException 500 "Internal server error").
Proof.
  intros Hin.
  destruct (fst (serve r fs w)) as [c|e] eqn:E;
    [|now rewrite (serve_raises _ _ _ _ E)].
  exfalso. unfold consumed_faults in Hin. unfold serve, get_db in E.
  assert (H0 : unfailed fs (SessionLocal w fs)).
  { exists []. split; [reflexivity | constructor]. }
  pose proof (route_unfailed fs r _ H0) as H.
  destruct (route r (SessionLocal w fs)) as [[c'|e'] s']; simpl in *;
    [|discriminate E].
  destruct H as (consumed & Hfs & Hnone).
  rewrite Hfs in Hin at 1 2.
  rewrite length_app, Nat.add_sub, firstn_app, Nat.sub_diag, firstn_all in Hin.
  simpl in Hin. rewrite app_nil_r in Hin.
  rewrite Forall_forall in Hnone. specialize (Hnone _ Hin). discriminate.
Qed.

(** Deleting from a well-formed table. *)
Lemma delete_task_well_formed (w : World) (task_id : Z) :
  well_formed w ->
  In task_id (ids w) ->
  exists w',
    get_db (delete_task task_id) [] w
    = (Return [("message", "Task deleted successfully")], w')
    /\ ~ In task_id (ids w')
    /\ (forall r, In r (tasks w') <-> In r (tasks w) /\ Row.id r <> task_id)
    /\ forall history,
         ~ In task_id (ids (snd (run w' history)))
         /\ forall l,
              In (Return (task_list l)) (fst (run w' history)) ->
              forall t, In t l -> Task.id t <> Some task_id.
Proof.
  intros Hwf Hin. destruct (lookup_In _ _ Hin) as [r Hl].
  eexists. split; [apply (delete_task_ok w task_id r Hl)|].
  set (w' := mkWorld _ _ _).
  assert (Hrows : forall x, In x (tasks w')
                            <-> In x (tasks w) /\ Row.id x <> task_id).
  { intros x. unfold w'; cbn [tasks]. rewrite filter_In.
    rewrite negb_true_iff. unfold has_id. rewrite Z.eqb_neq. tauto. }
  split; [|split; [exact Hrows|]].
  - unfold ids. intros Hx. apply in_map_iff in Hx as [x [Hx Hinx]].
    apply Hrows in Hinx. tauto.
  - destruct Hwf as (Hseq & Hnd & Hall).
    assert (Hfine : world_fine 1 (eq task_id) w').
    { unfold world_fine. cbn [tasks_id_seq w']. split; [exact Hseq|]. split.
      - intros k <-. rewrite Forall_forall in Hall.
        specialize (Hall _ Hin). lia.
      - split.
        + unfold w'; cbn [tasks]. now apply NoDup_map_filter.
        + apply Forall_forall. intros x Hx. apply Hrows in Hx as [Hx Hne].
          unfold ids in Hall. rewrite Forall_map, Forall_forall in Hall.
          split; [now apply Hall | congruence]. }
    intros history.
    destruct (run_fine (eq task_id) history 1 w' (Z.le_refl 1) Hfine)
      as [(_ & _ & _ & Hlive) Hshown].
    rewrite Forall_forall in Hshown, Hlive.
    split.
    { unfold ids. intros Hx. apply in_map_iff in Hx as [x [Hx Hinx]].
      destruct (Hlive _ Hinx) as [_ Hdead]. now apply Hdead. }
    intros l Hresp t Ht Hid.
    assert (Hs : In task_id (flat_map shown_ids (fst (run w' history)))).
    { apply in_flat_map. exists (Return (task_list l)). split; [exact Hresp|].
      simpl. apply in_flat_map. exists t. split; [exact Ht|].
      rewrite Hid. now left. }
    destruct (Hshown _ Hs) as [_ Hdead]. now apply Hdead.
Qed.

(* ================================================================= *)
(** ** The claims *)

(** C1: updating or deleting an id that is not in the table is meant to end
    in the NotFound (404) outcome.  It does not: the [HTTPException] with
    status 404 is raised inside the [try] block, the [except Exception]
    clause catches it, logs it, and raises the 500 "Internal server error"
    in its place.  Here for id 7, which [sample_world] does not hold. *)
Theorem missing_id_ends_in_500 :
  ~ In 7 (ids sample_world)
  /\ get_db (update_task 7 only_completed) [] sample_world
     = (Raise (HTTPException 500 "Internal server error"),
        mkWorld (tasks sample_world) (tasks_id_seq sample_world)
          [("Error updating task: ", HTTPException 404 "Task not found")])
  /\ get_db (delete_task 7) [] sample_world
     = (Raise (HTTPException 500 "Internal server error"),
        mkWorld (tasks sample_world) (tasks_id_seq sample_world)
          [("Error deleting task: ", HTTPException 404 "Task not found")]).
Proof.
  assert (Hn : ~ In 7 (ids sample_world)).
  { simpl. intros [H|[H|[H|[]]]]; discriminate H. }
  split; [exact Hn|]. exact (missing_id_outcome sample_world 7 only_completed Hn).
Qed.

(** C2: with no store failure, [get_tasks] returns exactly the tasks whose
    [completed] is true when the status equals "completed" up to case, exactly
    those whose [completed] is false for any other non-empty status, and every
    stored task when no status is given. *)
Theorem get_tasks_status_filter (w : World) :
  (forall status : string,
     caseless_eq status "completed" = true ->
     get_db (get_tasks (Some status)) [] w
     = (Return (map Task.load (filter (completed_is true) (tasks w))), w))
  /\ (forall status : string,
        status <> "" ->
        caseless_eq status "completed" = false ->
        get_db (get_tasks (Some status)) [] w
        = (Return (map Task.load (filter (completed_is false) (tasks w))), w))
  /\ get_db (get_tasks None) [] w = (Return (map Task.load (tasks w)), w).
Proof.
  repeat split.
  - intros status H.
    destruct status as [|a s]; [discriminate H|].
    exec. rewrite lower_completed, H, select_one. now destruct w.
  - intros status Hne H.
    destruct status as [|a s]; [congruence|].
    exec. rewrite lower_completed, H, select_one. now destruct w.
  - exec. rewrite select_nil. now destruct w.
Qed.

Lemma get_tasks_status_filter_witness :
  get_db (get_tasks (Some "Completed")) [] sample_world
  = (Return [Task.mk (Some 2) (Some "B") (Some "e") (Some true)
               (Some "#ff0000")],
     sample_world)
  /\ get_db (get_tasks (Some "pending")) [] sample_world
     = (Return [Task.mk (Some 1) (Some "A") (Some "d") (Some false)
                  (Some "#ffffff")],
        sample_world).
Proof.
  destruct (get_tasks_status_filter sample_world) as [H1 [H2 _]].
  split.
  - apply (H1 "Completed"). reflexivity.
  - apply (H2 "pending"); [discriminate | reflexivity].
Defined.

(** C3: with no store failure, [update_task] on a stored task returns the
    task with exactly the fields of the payload set to the values given and
    every other field as it was; the same holds of the stored row, the rows
    of other ids are not touched, and the id stays what it was. *)
Theorem update_task_partial (w : World) (task_id : Z) (u : TaskUpdate.t)
  (r : Row.t) :
  lookup task_id w = Some r ->
  exists t' w',
    get_db (update_task task_id u) [] w = (Return t', w')
    /\ Task.id t' = Some task_id
    /\ Task.title t'
       = match TaskUpdate.title u with Some v => v | None => Row.title r end
    /\ Task.description t'
       = match TaskUpdate.description u with
         | Some v => v | None => Row.description r end
    /\ Task.completed t'
       = match TaskUpdate.completed u with
         | Some v => v | None => Row.completed r end
    /\ Task.color t'
       = match TaskUpdate.color u with Some v => v | None => Row.color r end
    /\ lookup task_id w' = Some (Task.store task_id t')
    /\ (forall k, k <> task_id -> lookup k w' = lookup k w)
    /\ ids w' = ids w.
Proof.
  intros Hl.
  pose proof (update_task_ok w task_id u r Hl) as Hrun. cbv zeta in Hrun.
  pose proof (find_has_id _ _ _ Hl) as Hid.
  set (t' := fold_left setattr (TaskUpdate.dict_exclude_unset u) (Task.load r))
    in *.
  assert (Ht' : t' = Task.mk (Some task_id)
            (match TaskUpdate.title u with Some v => v | None => Row.title r end)
            (match TaskUpdate.description u with
             | Some v => v | None => Row.description r end)
            (match TaskUpdate.completed u with
             | Some v => v | None => Row.completed r end)
            (match TaskUpdate.color u with Some v => v | None => Row.color r end)).
  { unfold t'. rewrite fold_setattr_fields. simpl. now rewrite Hid. }
  eexists t', _. split; [exact Hrun|].
  rewrite Ht' at 1 2 3 4 5. simpl.
  repeat (split; [reflexivity|]).
  unfold lookup, ids in *; cbn [tasks].
  destruct (TaskUpdate.dict_exclude_unset u) as [|kv items] eqn:Eitems.
  - repeat split; auto.
    rewrite Hl. f_equal. unfold t'. simpl.
    destruct r; simpl in *. now subst.
  - repeat split.
    + now apply find_update_same with (r := r).
    + intros k Hk. now apply find_update_other.
    + apply map_id_update.
Qed.

Lemma update_task_partial_witness :
  exists t' w',
    get_db (update_task 1 only_completed) [] sample_world = (Return t', w')
    /\ Task.title t' = Some "A"
    /\ Task.description t' = Some "d"
    /\ Task.color t' = Some "#ffffff"
    /\ Task.completed t' = Some true.
Proof.
  destruct (update_task_partial sample_world 1 only_completed
              (Row.mk 1 (Some "A") (Some "d") (Some false) (Some "#ffffff"))
              eq_refl)
    as (t' & w' & Hrun & _ & Ht & Hd & Hc & Hk & _).
  exists t', w'. simpl in *. repeat split; assumption.
Defined.

(** C4: after any history of requests, with no store failure and while the
    sequence lasts, creating a task from a body that gives only title and
    description returns a task with [completed] false and [color] "#ffffff";
    the task is stored; its id is the value of the sequence, which was never
    the id of a stored row nor shown in a response at any earlier point. *)
Theorem create_task_defaults
  (history : list (request * list (option string)))
  (title description : string) :
  tasks_id_seq (snd (run empty_world history)) <= INT4_MAX ->
  exists k w',
    get_db
      (create_task
         (TaskCreate.parse (TaskCreate.mk_body title description None None)))
      [] (snd (run empty_world history))
    = (Return (Task.mk (Some k) (Some title) (Some description) (Some false)
                 (Some "#ffffff")),
       w')
    /\ In (Row.mk k (Some title) (Some description) (Some false)
             (Some "#ffffff"))
          (tasks w')
    /\ k = tasks_id_seq (snd (run empty_world history))
    /\ forall earlier later,
         history = earlier ++ later ->
         ~ In k (ids (snd (run empty_world earlier)))
         /\ ~ In k (flat_map shown_ids (fst (run empty_world earlier))).
Proof.
  intros Hmax.
  pose proof (run_well_formed history) as Hwf.
  pose proof (well_formed_fresh _ Hwf) as Hnew.
  eexists _, _. split; [|split; [|split]].
  - apply create_task_ok; assumption.
  - cbn [tasks]. apply in_or_app. right. left. reflexivity.
  - reflexivity.
  - intros earlier later ->. apply next_id_never_used.
Qed.

Lemma create_task_defaults_witness :
  exists k w',
    get_db
      (create_task (TaskCreate.parse (TaskCreate.mk_body "C" "g" None None)))
      [] (snd (run empty_world sample_history))
    = (Return (Task.mk (Some k) (Some "C") (Some "g") (Some false)
                 (Some "#ffffff")),
       w')
    /\ k = 4.
Proof.
  assert (H : tasks_id_seq (snd (run empty_world sample_history)) <= INT4_MAX).
  { vm_compute. discriminate. }
  destruct (create_task_defaults sample_history "C" "g" H)
    as (k & w' & Hrun & _ & Hk & _).
  exists k, w'. split; [exact Hrun | exact Hk].
Defined.

(** C5: in any table reached from the empty one, with no store failure,
    [delete_task] on an id that is present returns the message "Task deleted
    successfully" and removes the row of that id and no other; whatever
    requests follow, under whatever store failures, the id is never in the
    table again and no list that [get_tasks] returns holds a task of that
    id. *)
Theorem delete_task_removes
  (past : list (request * list (option string))) (task_id : Z) :
  In task_id (ids (snd (run empty_world past))) ->
  exists w',
    get_db (delete_task task_id) [] (snd (run empty_world past))
    = (Return [("message", "Task deleted successfully")], w')
    /\ ~ In task_id (ids w')
    /\ (forall r, In r (tasks w')
                  <-> In r (tasks (snd (run empty_world past)))
                      /\ Row.id r <> task_id)
    /\ forall history,
         ~ In task_id (ids (snd (run w' history)))
         /\ forall l,
              In (Return (task_list l)) (fst (run w' history)) ->
              forall t, In t l -> Task.id t <> Some task_id.
Proof.
  intros Hin. apply delete_task_well_formed; [|exact Hin].
  apply run_well_formed.
Qed.

Lemma delete_task_removes_witness :
  exists w',
    get_db (delete_task 3) [] (snd (run empty_world (removelast sample_history)))
    = (Return [("message", "Task deleted successfully")], w')
    /\ ids w' = [1]
    /\ forall l,
         In (Return (task_list l))
            (fst (run w' [(GET_tasks None, []); (POST_tasks body_A, []);
                          (GET_tasks (Some "completed"), [])])) ->
         forall t, In t l -> Task.id t <> Some 3.
Proof.
  assert (Hin : In 3 (ids (snd (run empty_world (removelast sample_history)))))
    by (vm_compute; tauto).
  destruct (delete_task_removes (removelast sample_history) 3 Hin)
    as (w' & Hrun & _ & _ & Hlater).
  exists w'. split; [exact Hrun|]. split.
  - vm_compute in Hrun. injection Hrun as <-. reflexivity.
  - intros l. apply Hlater.
Defined.

(** C6: in every state reached from the empty table the ids of the stored
    tasks are pairwise distinct; [update_task] never changes the ids of the
    table, whatever the payload and the store failures, since no entry of a
    payload sets [id]; and the id of a task that [create_task] returns was
    never the id of a stored row, nor shown in a response, at any earlier
    point -- so the id of a deleted task is not given out again. *)
Theorem ids_unique_fixed_never_reused :
  (forall history, NoDup (ids (snd (run empty_world history))))
  /\ (forall o kv, Task.id (setattr o kv) = Task.id o)
  /\ (forall fs w task_id u,
        ids (snd (get_db (update_task task_id u) fs w)) = ids w)
  /\ (forall earlier later task fs t w',
        get_db (create_task task) fs (snd (run empty_world (earlier ++ later)))
        = (Return t, w') ->
        exists k,
          Task.id t = Some k
          /\ ~ In k (ids (snd (run empty_world earlier)))
          /\ ~ In k (flat_map shown_ids (fst (run empty_world earlier)))).
Proof.
  split; [|split; [|split]].
  - intros history. apply (run_well_formed history).
  - apply setattr_id.
  - intros fs w task_id u. apply update_task_keys.
  - intros earlier later task fs t w' Hrun.
    exists (tasks_id_seq (snd (run empty_world (earlier ++ later)))).
    split; [exact (create_task_id _ _ _ _ _ Hrun)|].
    apply next_id_never_used.
Qed.

Lemma ids_unique_fixed_never_reused_witness :
  exists k,
    fst (get_db (create_task (TaskCreate.parse body_A)) []
           (snd (run empty_world sample_history)))
    = Return (Task.mk (Some k) (Some "A") (Some "d") (Some false)
                (Some "#ffffff"))
    /\ ~ In k (ids (snd (run empty_world [(POST_tasks body_A, [])]))).
Proof.
  destruct ids_unique_fixed_never_reused as (_ & _ & _ & Hfresh).
  destruct (Hfresh [(POST_tasks body_A, [])] (tl sample_history)
              (TaskCreate.parse body_A) []
              (Task.mk (Some 4) (Some "A") (Some "d") (Some false)
                 (Some "#ffffff"))
              (snd (get_db (create_task (TaskCreate.parse body_A)) []
                      (snd (run empty_world sample_history))))
              eq_refl)
    as (k & Hk & Hnew & _).
  exists k. split; [|exact Hnew].
  injection Hk as <-. reflexivity.
Defined.

(** C7: whatever the request, the table and the fault plan, a handler that
    raises raises exactly the 500 "Internal server error"; a request during
    which any store call failed, with whatever message, ends in that 500;
    and when it is the first store call that fails, the table and the
    sequence are as before and the cause is in the log only. *)
Theorem store_failure_is_generic_500 :
  (forall r fs w e,
     fst (serve r fs w) = Raise e ->
     e = HTTPException 500 "Internal server error")
  /\ (forall r fs w msg,
        In (Some msg) (consumed_faults r fs w) ->
        fst (serve r fs w) = Raise (HTTPException 500 "Internal server error"))
  /\ (forall r msg fs w,
        serve r (Some msg :: fs) w
        = (Raise (HTTPException 500 "Internal server error"),
           mkWorld (tasks w) (tasks_id_seq w)
             (log w ++ [(log_prefix r, SQLAlchemyError msg)]))).
Proof.
  split; [|split].
  - apply serve_raises.
  - apply failure_surfaces.
  - apply serve_first_call_fails.
Qed.

Lemma store_failure_is_generic_500_witness :
  In (Some "connection reset")
     (consumed_faults (POST_tasks body_A) [None; Some "connection reset"]
        sample_world)
  /\ fst (serve (POST_tasks body_A) [None; Some "connection reset"]
            sample_world)
     = Raise (HTTPException 500 "Internal server error").
Proof.
  assert (Hin : In (Some "connection reset")
                  (consumed_faults (POST_tasks body_A)
                     [None; Some "connection reset"] sample_world)).
  { vm_compute. right. left. reflexivity. }
  destruct store_failure_is_generic_500 as (_ & H & _).
  split; [exact Hin | exact (H _ _ _ _ Hin)].
Defined.

(* ================================================================= *)
(** ** Further properties of the handlers *)

(** *** What a request can do to the world, under any fault plan *)

Lemma create_task_outcome fs w task :
  match get_db (create_task task) fs w with
  | (Return t, w') =>
      t = created (tasks_id_seq w) task
      /\ w' = mkWorld
                (tasks w ++ [Task.store (tasks_id_seq w)
                               (created (tasks_id_seq w) task)])
                (tasks_id_seq w + 1) (log w)
  | (Raise e, w') =>
      exists cause,
        log w' = log w ++ [("Error creating task: ", cause)]
        /\ ((tasks w' = tasks w
             /\ (tasks_id_seq w' = tasks_id_seq w
                 \/ tasks_id_seq w' = tasks_id_seq w + 1))
            \/ (tasks w'
                = tasks w ++ [Task.store (tasks_id_seq w)
                                (created (tasks_id_seq w) task)]
                /\ tasks_id_seq w' = tasks_id_seq w + 1))
  end.
Proof.
  unfold get_db, create_task, try_except_Exception, SessionLocal, created.
  crunch.
  all: try (eexists; split; [reflexivity|]; cbn; tauto).
  all: rewrite find_app_new in Heqo by (assumption || reflexivity);
    injection Heqo as <-; split; reflexivity.
Qed.

Lemma get_tasks_outcome status fs w :
  match get_db (get_tasks status) fs w with
  | (Return l, w') => w' = w
  | (Raise e, w') =>
      exists cause,
        w' = mkWorld (tasks w) (tasks_id_seq w)
               (log w ++ [("Error fetching tasks: ", cause)])
  end.
Proof.
  unfold get_db, get_tasks, try_except_Exception, SessionLocal, all.
  destruct status as [[|a status]|]; crunch;
    solve [apply world_eta | eexists; reflexivity].
Qed.

Lemma delete_task_outcome task_id fs w :
  match get_db (delete_task task_id) fs w with
  | (Return d, w') =>
      d = [("message", "Task deleted successfully")]
      /\ In task_id (ids w)
      /\ w' = mkWorld (filter (fun r => negb (has_id task_id r)) (tasks w))
                 (tasks_id_seq w) (log w)
  | (Raise e, w') =>
      exists cause,
        log w' = log w ++ [("Error deleting task: ", cause)]
        /\ tasks_id_seq w' = tasks_id_seq w
        /\ (tasks w' = tasks w
            \/ tasks w' = filter (fun r => negb (has_id task_id r)) (tasks w))
  end.
Proof.
  unfold get_db, delete_task, try_except_Exception, SessionLocal.
  unfold bind at 1. unfold first.
  destruct fs as [|[m|] fs]; run_ops.
  2: { eexists. repeat split. now left. }
  all: rewrite select_id;
    destruct (filter (has_id task_id) (tasks w)) as [|r rest] eqn:Ef; run_ops.
  all: try (eexists; repeat split; now left).
  all: assert (Hr : Row.id r = task_id)
    by (apply has_id_true;
        apply (proj2 (proj1 (filter_In _ _ _)
                        (eq_ind_r (fun l => In r l) (in_eq r rest) Ef)))).
  all: assert (Hin : In task_id (ids w))
    by (unfold ids; apply in_map_iff; exists r; split; [exact Hr|];
        apply (proj1 (proj1 (filter_In _ _ _)
                        (eq_ind_r (fun l => In r l) (in_eq r rest) Ef)))).
  all: crunch; rewrite ?Hr.
  all: try (eexists; repeat split; tauto).
Qed.

(** Case analysis as in [crunch], with an equation used as it applies. *)
Ltac crunch_with H :=
  repeat first
    [ discriminate
    | rewrite H
    | progress run_ops
    | progress (unfold flush_instance, sql_insert, sql_update, sql_delete,
                nextval)
    | rewrite not_null_ok_true
    | match goal with
      | |- context [match ?fs with [] => _ | _ :: _ => _ end] =>
          is_var fs; destruct fs as [|[?|] ?]
      | |- context [match find ?f ?l with _ => _ end] =>
          destruct (find f l) eqn:?
      end ].

Lemma update_task_outcome task_id u fs w :
  let items := TaskUpdate.dict_exclude_unset u in
  let updated r :=
    match items with
    | [] => tasks w
    | _ =>
        map (fun r' =>
               if has_id task_id r'
               then Task.store task_id (fold_left setattr items (Task.load r))
               else r')
            (tasks w)
    end in
  match get_db (update_task task_id u) fs w with
  | (Return t, w') =>
      exists r,
        lookup task_id w = Some r
        /\ t = fold_left setattr items (Task.load r)
        /\ w' = mkWorld (updated r) (tasks_id_seq w) (log w)
  | (Raise e, w') =>
      exists cause,
        log w' = log w ++ [("Error updating task: ", cause)]
        /\ tasks_id_seq w' = tasks_id_seq w
        /\ (tasks w' = tasks w
            \/ exists r, lookup task_id w = Some r /\ tasks w' = updated r)
  end.
Proof.
  cbv zeta.
  unfold get_db, update_task, try_except_Exception, SessionLocal.
  unfold bind at 1. unfold first.
  destruct fs as [|[m|] fs]; run_ops.
  2: { eexists. repeat split. now left. }
  all: rewrite select_id;
    destruct (filter (has_id task_id) (tasks w)) as [|r rest] eqn:Ef; run_ops.
  all: try (eexists; repeat split; now left).
  all: assert (Hl : lookup task_id w = Some r)
    by (unfold lookup; rewrite find_filter, Ef; reflexivity).
  all: pose proof (find_has_id _ _ _ Hl) as Hr.
  all: rewrite for_each_setattr; run_ops.
  all: remember (TaskUpdate.dict_exclude_unset u) as items eqn:Eitems.
  all: remember (fold_left setattr items (Task.load r)) as t' eqn:Et'.
  all: assert (Ht : Task.id t' = Some task_id)
    by (subst t'; rewrite fold_setattr_id; simpl; now rewrite Hr).
  all: destruct items as [|kv its].
  all: crunch_with Ht.
  all: try (eexists; split; [reflexivity|]; split; [reflexivity|];
            first [ left; reflexivity
                  | right; exists r; split; [exact Hl | subst t'; reflexivity] ]).
  all: exists r; split; [exact Hl|].
  all: first
    [ rewrite (find_update_same _ _ _ _ Hl) in Heqo by reflexivity;
      injection Heqo as <-; rewrite load_store by exact Ht; subst t';
      split; reflexivity
    | unfold lookup in Hl; rewrite Hl in Heqo; injection Heqo as <-;
      split; reflexivity ].
Qed.

(** *** Auxiliary facts *)

Lemma get_db_wrap {A} (c : M A) (f : A -> content) fs w :
  get_db (a <- c ;; ret (f a)) fs w
  = (wrap f (fst (get_db c fs w)), snd (get_db c fs w)).
Proof.
  unfold get_db, bind, ret.
  now destruct (c (SessionLocal w fs)) as [[a|e] s].
Qed.

Lemma serve_POST body fs w :
  serve (POST_tasks body) fs w
  = (wrap one_task (fst (get_db (create_task (TaskCreate.parse body)) fs w)),
     snd (get_db (create_task (TaskCreate.parse body)) fs w)).
Proof. apply get_db_wrap. Qed.

Lemma serve_GET status fs w :
  serve (GET_tasks status) fs w
  = (wrap task_list (fst (get_db (get_tasks status) fs w)),
     snd (get_db (get_tasks status) fs w)).
Proof. apply get_db_wrap. Qed.

Lemma serve_PUT task_id u fs w :
  serve (PUT_tasks task_id u) fs w
  = (wrap one_task (fst (get_db (update_task task_id u) fs w)),
     snd (get_db (update_task task_id u) fs w)).
Proof. apply get_db_wrap. Qed.

Lemma serve_DELETE task_id fs w :
  serve (DELETE_tasks task_id) fs w
  = (wrap dict (fst (get_db (delete_task task_id) fs w)),
     snd (get_db (delete_task task_id) fs w)).
Proof. apply get_db_wrap. Qed.

Lemma find_delete_other pk k rows :
  k <> pk ->
  find (has_id k) (filter (fun r => negb (has_id pk r)) rows)
  = find (has_id k) rows.
Proof.
  intros Hk. induction rows as [|x rows IH]; simpl; [reflexivity|].
  destruct (has_id pk x) eqn:E; simpl.
  - apply has_id_true in E.
    assert (H : has_id k x = false) by (unfold has_id; apply Z.eqb_neq; lia).
    now rewrite H.
  - now rewrite IH.
Qed.

Lemma filter_absent pk rows :
  existsb (has_id pk) rows = false ->
  filter (fun r => negb (has_id pk r)) rows = rows.
Proof.
  induction rows as [|x rows IH]; simpl; [reflexivity|]. intros H.
  apply orb_false_elim in H as [Hx H]. rewrite Hx; simpl. now rewrite IH.
Qed.

Lemma same_letter_lower a b :
  same_letter a b = true -> lower_ascii a = lower_ascii b.
Proof.
  unfold same_letter, lower_ascii. fold (is_upper a) (is_upper b).
  intros H. apply orb_prop in H as [H|H]; [apply orb_prop in H as [H|H]|].
  - apply Ascii.eqb_eq in H. now subst.
  - apply andb_prop in H as [Ha H]. apply Nat.eqb_eq in H. rewrite Ha.
    assert (Hb : is_upper b = false).
    { unfold is_upper in *. apply andb_prop in Ha as [H1 H2].
      apply Nat.leb_le in H1, H2. rewrite <- H.
      apply andb_false_intro2. apply Nat.leb_gt. lia. }
    rewrite Hb, H. apply ascii_nat_embedding.
  - apply andb_prop in H as [Hb H]. apply Nat.eqb_eq in H. rewrite Hb.
    assert (Ha : is_upper a = false).
    { unfold is_upper in *. apply andb_prop in Hb as [H1 H2].
      apply Nat.leb_le in H1, H2. rewrite <- H.
      apply andb_false_intro2. apply Nat.leb_gt. lia. }
    rewrite Ha, H. symmetry. apply ascii_nat_embedding.
Qed.

Lemma caseless_lower s : forall t,
  caseless_eq s t = true -> lower s = lower t.
Proof.
  induction s as [|a s IH]; intros [|b t] H; simpl in *;
    try discriminate; [reflexivity|].
  apply andb_prop in H as [Hab H].
  now rewrite (same_letter_lower _ _ Hab), (IH _ H).
Qed.

Lemma fold_setattr_twice u o :
  fold_left setattr (TaskUpdate.dict_exclude_unset u)
    (fold_left setattr (TaskUpdate.dict_exclude_unset u) o)
  = fold_left setattr (TaskUpdate.dict_exclude_unset u) o.
Proof.
  rewrite !fold_setattr_fields. simpl.
  now destruct u as [[t|] [d|] [c|] [k|]].
Qed.

Lemma map_update_twice pk rnew rows :
  Row.id rnew = pk ->
  map (fun r' => if has_id pk r' then rnew else r')
      (map (fun r' => if has_id pk r' then rnew else r') rows)
  = map (fun r' => if has_id pk r' then rnew else r') rows.
Proof.
  intros Hn. apply has_id_true in Hn. rewrite map_map. apply map_ext.
  intros x. destruct (has_id pk x) eqn:E; [now rewrite Hn | now rewrite E].
Qed.

Lemma get_tasks_ok status w :
  get_db (get_tasks status) [] w
  = (Return
       (map Task.load
          (match status with
           | Some (String _ _ as s) =>
               filter (completed_is (lower s =? "completed")) (tasks w)
           | _ => tasks w
           end)),
     w).
Proof.
  destruct status as [[|a s]|]; exec;
    rewrite ?select_one, ?select_nil; now destruct w.
Qed.

(** *** The properties *)

(** X1: [get_tasks] only reads.  Whatever the status and the store failures,
    the rows of the table and the id sequence are what they were. *)
Theorem get_tasks_reads_only (status : option string)
  (fs : list (option string)) (w : World) :
  tasks (snd (get_db (get_tasks status) fs w)) = tasks w
  /\ tasks_id_seq (snd (get_db (get_tasks status) fs w)) = tasks_id_seq w.
Proof.
  pose proof (get_tasks_outcome status fs w) as H.
  destruct (get_db (get_tasks status) fs w) as [[l|e] w']; simpl.
  - now subst.
  - destruct H as [cause ->]. split; reflexivity.
Qed.

(** X2: a handler that returns writes nothing to the log, and one that
    raises writes exactly one record.  Whatever the request and the store
    failures: when the handler returns, the log is as it was -- also when
    its value is then refused by the [response_model] and the caller gets
    the framework's 500, which leaves no record; when the handler raises,
    the caller gets a 500 and exactly one record is added, under the prefix
    of the handler.  No record is ever lost. *)
Theorem one_log_record_per_error (r : request) (fs : list (option string))
  (w : World) :
  match serve r fs w with
  | (Return _, w') => log w' = log w
  | (Raise e, w') =>
      fst (respond (Raise e)) = 500
      /\ exists cause, log w' = log w ++ [(log_prefix r, cause)]
  end.
Proof.
  pose proof (serve_raises r fs w) as H500.
  assert (Hlog : match serve r fs w with
                 | (Return _, w') => log w' = log w
                 | (Raise _, w') =>
                     exists cause, log w' = log w ++ [(log_prefix r, cause)]
                 end).
  { destruct r as [body|status|task_id u|task_id].
    - rewrite serve_POST.
      pose proof (create_task_outcome fs w (TaskCreate.parse body)) as H.
      destruct (get_db (create_task (TaskCreate.parse body)) fs w)
        as [[t|e] w']; simpl.
      + destruct H as [_ ->]. reflexivity.
      + destruct H as (cause & Hlog & _). now exists cause.
    - rewrite serve_GET.
      pose proof (get_tasks_outcome status fs w) as H.
      destruct (get_db (get_tasks status) fs w) as [[l|e] w']; simpl.
      + now subst.
      + destruct H as [cause ->]. now exists cause.
    - rewrite serve_PUT.
      pose proof (update_task_outcome task_id u fs w) as H. cbv zeta in H.
      destruct (get_db (update_task task_id u) fs w) as [[t|e] w']; simpl.
      + destruct H as (r & _ & _ & ->). reflexivity.
      + destruct H as (cause & Hlog & _). now exists cause.
    - rewrite serve_DELETE.
      pose proof (delete_task_outcome task_id fs w) as H.
      destruct (get_db (delete_task task_id) fs w) as [[d|e] w']; simpl.
      + destruct H as (_ & _ & ->). reflexivity.
      + destruct H as (cause & Hlog & _). now exists cause. }
  destruct (serve r fs w) as [[c|e] w']; [exact Hlog|].
  split; [|exact Hlog]. now rewrite (H500 e eq_refl).
Qed.

(** A listing of a table with a NULL row is answered with 500 and leaves no
    record; a listing whose query fails is answered with 500 and leaves
    one. *)
Lemma one_log_record_per_error_witness :
  fst (respond
         (fst (serve (GET_tasks None) []
                 (mkWorld [Row.mk 1 None None (Some false) (Some "#ffffff")]
                    2 []))))
  = 500
  /\ log (snd (serve (GET_tasks None) []
                 (mkWorld [Row.mk 1 None None (Some false) (Some "#ffffff")]
                    2 [])))
     = []
  /\ log (snd (serve (GET_tasks None) [Some "timeout"] sample_world))
     = [("Error fetching tasks: ", SQLAlchemyError "timeout")].
Proof.
  split; [reflexivity|]. split.
  - exact (one_log_record_per_error (GET_tasks None) []
             (mkWorld [Row.mk 1 None None (Some false) (Some "#ffffff")] 2 [])).
  - reflexivity.
Defined.

(** X3: [create_task] is all or nothing.  Whatever the store failures, the
    rows afterwards are the rows before, or the rows before together with
    the one row of the request under the next id (in no particular order);
    the sequence moves by at most one; and when the handler returns, it
    returns the task of the request and the row is there. *)
Theorem create_task_all_or_nothing (task : TaskCreate.t)
  (fs : list (option string)) (w : World) :
  let row := Task.store (tasks_id_seq w) (created (tasks_id_seq w) task) in
  let res := get_db (create_task task) fs w in
  (Permutation (tasks (snd res)) (tasks w)
   \/ Permutation (tasks (snd res)) (row :: tasks w))
  /\ tasks_id_seq w <= tasks_id_seq (snd res) <= tasks_id_seq w + 1
  /\ match fst res with
     | Return t =>
         t = created (tasks_id_seq w) task
         /\ Permutation (tasks (snd res)) (row :: tasks w)
     | Raise _ => True
     end.
Proof.
  cbv zeta. pose proof (create_task_outcome fs w task) as H.
  assert (Hp : forall row, Permutation (tasks w ++ [row]) (row :: tasks w)).
  { intros row. apply Permutation_sym, Permutation_cons_append. }
  destruct (get_db (create_task task) fs w) as [[t|e] w']; simpl.
  - destruct H as [-> ->]. simpl. repeat split; auto; lia.
  - destruct H as (cause & _ & [[Ht [Hs|Hs]]|[Ht Hs]]); rewrite Ht, Hs;
      repeat split; auto; lia.
Qed.

(** X6: [delete_task] is all or nothing and touches one id.  Whatever the
    store failures, the sequence is unchanged, the table is the table before
    or the table before without the rows of [task_id], and the row found
    under any other id is the same as before; when the handler returns, the
    id was in the table and its row is gone. *)
Theorem delete_task_all_or_nothing (task_id : Z) (fs : list (option string))
  (w : World) :
  let res := get_db (delete_task task_id) fs w in
  tasks_id_seq (snd res) = tasks_id_seq w
  /\ (tasks (snd res) = tasks w
      \/ tasks (snd res)
         = filter (fun r => negb (has_id task_id r)) (tasks w))
  /\ (forall k, k <> task_id -> lookup k (snd res) = lookup k w)
  /\ match fst res with
     | Return d =>
         d = [("message", "Task deleted successfully")]
         /\ In task_id (ids w)
         /\ lookup task_id (snd res) = None
     | Raise _ => True
     end.
Proof.
  cbv zeta. pose proof (delete_task_outcome task_id fs w) as H.
  assert (Hother : forall rows' k, k <> task_id ->
            rows' = tasks w
            \/ rows' = filter (fun r => negb (has_id task_id r)) (tasks w) ->
            find (has_id k) rows' = find (has_id k) (tasks w)).
  { intros rows' k Hk [->| ->]; [reflexivity | now apply find_delete_other]. }
  destruct (get_db (delete_task task_id) fs w) as [[d|e] w']; simpl.
  - destruct H as (-> & Hin & ->). simpl. repeat split; auto.
    + intros k Hk. unfold lookup; simpl. now apply find_delete_other.
    + unfold lookup; simpl.
      destruct (find _ _) as [x|] eqn:Ef; [|reflexivity].
      apply find_some in Ef as [Hx Hid]. apply filter_In in Hx as [_ Hx].
      now rewrite Hid in Hx.
  - destruct H as (cause & _ & Hs & Ht). repeat split; auto.
    intros k Hk. unfold lookup. now apply Hother.
Qed.

(** X7: [update_task] touches one id.  Whatever the payload and the store
    failures, the sequence is unchanged and the row found under any other id
    is the same as before; when the handler returns, the row of [task_id]
    existed and now holds what was returned. *)
Theorem update_task_touches_one_id (task_id : Z) (u : TaskUpdate.t)
  (fs : list (option string)) (w : World) :
  let res := get_db (update_task task_id u) fs w in
  tasks_id_seq (snd res) = tasks_id_seq w
  /\ (forall k, k <> task_id -> lookup k (snd res) = lookup k w)
  /\ match fst res with
     | Return t =>
         In task_id (ids w)
         /\ lookup task_id (snd res) = Some (Task.store task_id t)
     | Raise _ => True
     end.
Proof.
  cbv zeta. pose proof (update_task_outcome task_id u fs w) as H.
  cbv zeta in H.
  assert (Hother : forall r k, k <> task_id ->
            find (has_id k)
              (match TaskUpdate.dict_exclude_unset u with
               | [] => tasks w
               | _ :: _ =>
                   map (fun r' =>
                          if has_id task_id r'
                          then Task.store task_id
                                 (fold_left setattr
                                    (TaskUpdate.dict_exclude_unset u)
                                    (Task.load r))
                          else r')
                       (tasks w)
               end)
            = find (has_id k) (tasks w)).
  { intros r k Hk. destruct (TaskUpdate.dict_exclude_unset u);
      [reflexivity | now apply find_update_other]. }
  destruct (get_db (update_task task_id u) fs w) as [[t|e] w']; simpl.
  - destruct H as (r & Hl & -> & ->). simpl. repeat split.
    + intros k Hk. unfold lookup; simpl. now apply Hother.
    + unfold ids, lookup in *. apply in_map_iff. exists r.
      split; [now apply find_has_id in Hl | now apply find_some in Hl].
    + unfold lookup in *; simpl.
      destruct (TaskUpdate.dict_exclude_unset u) as [|kv its] eqn:E.
      * rewrite Hl. simpl. f_equal. pose proof (find_has_id _ _ _ Hl).
        destruct r; simpl in *. now subst.
      * now apply find_update_same with (r := r).
  - destruct H as (cause & _ & Hs & Ht). repeat split; auto.
    intros k Hk. unfold lookup. destruct Ht as [->|(r & _ & ->)];
      [reflexivity | now apply Hother].
Qed.

(** X4: a failure of [db.refresh] comes too late to undo a create.  In a
    well-formed table, while the sequence lasts, when the flush and the
    COMMIT go through and the refresh fails, the caller gets the 500 and the
    row is stored all the same. *)
Theorem create_task_refresh_failure_keeps_row (task : TaskCreate.t)
  (msg : string) (fs : list (option string)) (w : World) :
  well_formed w ->
  tasks_id_seq w <= INT4_MAX ->
  get_db (create_task task) (None :: None :: Some msg :: fs) w
  = (Raise (HTTPException 500 "Internal server error"),
     mkWorld
       (tasks w ++ [Task.store (tasks_id_seq w) (created (tasks_id_seq w) task)])
       (tasks_id_seq w + 1)
       (log w ++ [("Error creating task: ", SQLAlchemyError msg)])).
Proof.
  intros Hwf Hmax. pose proof (well_formed_fresh _ Hwf) as Hnew.
  assert (Hgt : (tasks_id_seq w >? INT4_MAX) = false).
  { rewrite Z.gtb_ltb. apply Z.ltb_ge. exact Hmax. }
  unfold get_db, create_task, try_except_Exception, SessionLocal, created.
  run_ops. unfold flush_instance, sql_insert, nextval. run_ops.
  rewrite Hgt. run_ops. rewrite Hnew, not_null_ok_true. run_ops.
  reflexivity.
Qed.

Lemma sample_world_is_well_formed : well_formed sample_world.
Proof.
  unfold well_formed, ids; simpl. split; [lia|]. split.
  - repeat constructor; simpl; intuition discriminate.
  - repeat constructor; lia.
Qed.

Lemma sample_world_seq_ok : tasks_id_seq sample_world <= INT4_MAX.
Proof. vm_compute. discriminate. Qed.

Lemma create_task_refresh_failure_keeps_row_witness :
  ids (snd (get_db (create_task (TaskCreate.parse body_A))
              [None; None; Some "timeout"] sample_world))
  = [1; 2; 4; 5].
Proof.
  rewrite (create_task_refresh_failure_keeps_row (TaskCreate.parse body_A)
             "timeout" [] sample_world sample_world_is_well_formed
             sample_world_seq_ok).
  reflexivity.
Defined.

(** X5: a create that fails at COMMIT stores nothing but uses up an id.  In
    a well-formed table with two ids to spare, after a create whose COMMIT
    fails the table is unchanged, and the next create gets the id after the
    one that was lost. *)
Theorem create_task_commit_failure_skips_id (lost task : TaskCreate.body)
  (msg : string) (fs : list (option string)) (w : World) :
  well_formed w ->
  tasks_id_seq w + 1 <= INT4_MAX ->
  run w [(POST_tasks lost, None :: Some msg :: fs); (POST_tasks task, [])]
  = ([Raise (HTTPException 500 "Internal server error");
      Return (one_task (created (tasks_id_seq w + 1) (TaskCreate.parse task)))],
     mkWorld
       (tasks w ++ [Task.store (tasks_id_seq w + 1)
                      (created (tasks_id_seq w + 1) (TaskCreate.parse task))])
       (tasks_id_seq w + 2)
       (log w ++ [("Error creating task: ", SQLAlchemyError msg)])).
Proof.
  intros Hwf Hmax. pose proof (well_formed_fresh _ Hwf) as Hnew.
  assert (Hgt : (tasks_id_seq w >? INT4_MAX) = false).
  { rewrite Z.gtb_ltb. apply Z.ltb_ge. lia. }
  assert (H1 : serve (POST_tasks lost) (None :: Some msg :: fs) w
               = (Raise (HTTPException 500 "Internal server error"),
                  mkWorld (tasks w) (tasks_id_seq w + 1)
                    (log w ++ [("Error creating task: ",
                                SQLAlchemyError msg)]))).
  { unfold serve, route, get_db, create_task, try_except_Exception,
      SessionLocal. run_ops. unfold flush_instance, sql_insert, nextval.
    run_ops. rewrite Hgt. run_ops. rewrite Hnew, not_null_ok_true. run_ops.
    reflexivity. }
  cbn [run]. rewrite H1. rewrite serve_POST.
  set (w1 := mkWorld (tasks w) (tasks_id_seq w + 1) _).
  assert (Hnew1 : existsb (has_id (tasks_id_seq w1)) (tasks w1) = false).
  { apply not_true_is_false. intros He.
    apply existsb_exists in He as [r [Hin Hr]]. apply has_id_true in Hr.
    destruct Hwf as (_ & _ & Hall). unfold ids in Hall.
    rewrite Forall_map, Forall_forall in Hall. specialize (Hall r Hin).
    simpl in Hr. lia. }
  rewrite (create_task_ok w1 (TaskCreate.parse task) Hmax Hnew1).
  cbv zeta. cbn [tasks tasks_id_seq log w1 fst snd wrap]. unfold created.
  replace (tasks_id_seq w + 1 + 1) with (tasks_id_seq w + 2) by lia.
  reflexivity.
Qed.

Lemma create_task_commit_failure_skips_id_witness :
  shown_ids
    (nth 1 (fst (run sample_world
                   [(POST_tasks body_A, [None; Some "timeout"]);
                    (POST_tasks body_A, [])]))
       (Raise (SQLAlchemyError "")))
  = [6].
Proof.
  assert (H : tasks_id_seq sample_world + 1 <= INT4_MAX)
    by (vm_compute; discriminate).
  rewrite (create_task_commit_failure_skips_id body_A body_A "timeout" []
             sample_world sample_world_is_well_formed H).
  reflexivity.
Defined.

(** X8: [update_task] is idempotent.  With no store failure, sending the
    same payload to the same stored task a second time returns the same task
    and leaves the world as the first update left it. *)
Theorem update_task_idempotent (task_id : Z) (u : TaskUpdate.t) (w : World)
  (r : Row.t) :
  lookup task_id w = Some r ->
  get_db (update_task task_id u) []
    (snd (get_db (update_task task_id u) [] w))
  = get_db (update_task task_id u) [] w.
Proof.
  intros Hl. pose proof (find_has_id _ _ _ Hl) as Hid.
  rewrite (update_task_ok w task_id u r Hl). cbv zeta. cbn [snd].
  set (items := TaskUpdate.dict_exclude_unset u).
  set (t' := fold_left setattr items (Task.load r)).
  assert (Ht' : Task.id t' = Some task_id).
  { unfold t'. rewrite fold_setattr_id. simpl. now rewrite Hid. }
  set (w1 := mkWorld _ _ _).
  assert (Hl1 : lookup task_id w1 = Some (Task.store task_id t')).
  { unfold lookup, w1; cbn [tasks]. destruct items as [|kv its] eqn:E.
    - unfold lookup in Hl. rewrite Hl. f_equal. unfold t'. simpl.
      destruct r; simpl in *. now subst.
    - now apply find_update_same with (r := r). }
  rewrite (update_task_ok w1 task_id u _ Hl1). cbv zeta. fold items.
  rewrite (load_store _ _ Ht'). unfold t' at 1 2, items.
  rewrite fold_setattr_twice. fold items. fold t'.
  f_equal. unfold w1; cbn [tasks tasks_id_seq log].
  destruct items as [|kv its]; [reflexivity|].
  now rewrite map_update_twice.
Qed.

Lemma update_task_idempotent_witness :
  get_db (update_task 1 only_completed) []
    (snd (get_db (update_task 1 only_completed) [] sample_world))
  = get_db (update_task 1 only_completed) [] sample_world.
Proof.
  exact (update_task_idempotent 1 only_completed sample_world
           (Row.mk 1 (Some "A") (Some "d") (Some false) (Some "#ffffff"))
           eq_refl).
Defined.

(** X9: a created task shows in the next listing.  In a well-formed table,
    with no store failure while the sequence lasts, the list returned right
    after a create holds, in no particular order, the tasks the same query
    returned before it, together with the new task when there is no status
    filter or the filter matches its [completed]. *)
Theorem create_then_list (body : TaskCreate.body) (status : option string)
  (w : World) :
  well_formed w ->
  tasks_id_seq w <= INT4_MAX ->
  exists before after,
    fst (get_db (get_tasks status) [] w) = Return before
    /\ fst (run w [(POST_tasks body, []); (GET_tasks status, [])])
       = [ Return (one_task (created (tasks_id_seq w) (TaskCreate.parse body)));
           Return (task_list after) ]
    /\ Permutation after
         (match status with
          | Some (String _ _ as s) =>
              if Bool.eqb (TaskCreate.completed (TaskCreate.parse body))
                   (lower s =? "completed")
              then [created (tasks_id_seq w) (TaskCreate.parse body)]
              else []
          | _ => [created (tasks_id_seq w) (TaskCreate.parse body)]
          end ++ before).
Proof.
  intros Hwf Hmax. pose proof (well_formed_fresh _ Hwf) as Hnew.
  eexists _, _. split; [rewrite get_tasks_ok; reflexivity|].
  cbn [run]. rewrite serve_POST.
  rewrite (create_task_ok w (TaskCreate.parse body) Hmax Hnew). cbv zeta.
  cbn [fst snd wrap]. rewrite serve_GET, get_tasks_ok. cbn [fst snd wrap tasks].
  split; [reflexivity|]. unfold created.
  destruct status as [[|a s]|].
  - rewrite map_app. apply Permutation_app_comm.
  - set (b := lower (String a s) =? "completed").
    rewrite filter_app, map_app.
    cbn [filter]. unfold completed_is at 2.
    cbn [Task.store Row.completed Task.completed].
    destruct (Bool.eqb _ b); apply Permutation_app_comm.
  - rewrite map_app. apply Permutation_app_comm.
Qed.

Lemma create_then_list_witness :
  exists after,
    fst (run sample_world [(POST_tasks body_A, []); (GET_tasks (Some "done"), [])])
    = [ Return (one_task (created 5 (TaskCreate.parse body_A)));
        Return (task_list after) ]
    /\ Permutation after
         [ created 5 (TaskCreate.parse body_A);
           Task.mk (Some 1) (Some "A") (Some "d") (Some false)
             (Some "#ffffff") ].
Proof.
  destruct (create_then_list body_A (Some "done") sample_world
              sample_world_is_well_formed sample_world_seq_ok)
    as (before & after & Hb & Hrun & Hp).
  exists after. split; [exact Hrun|].
  vm_compute in Hb. injection Hb as <-. exact Hp.
Defined.

(** X10: deleting what was just created gives the rows back.  In a
    well-formed table, with no store failure while the sequence lasts, a
    create followed by a delete of the id it returned leaves the rows as they
    were; only the sequence has moved on. *)
Theorem create_then_delete (body : TaskCreate.body) (w : World) :
  well_formed w ->
  tasks_id_seq w <= INT4_MAX ->
  run w [(POST_tasks body, []); (DELETE_tasks (tasks_id_seq w), [])]
  = ([ Return (one_task (created (tasks_id_seq w) (TaskCreate.parse body)));
       Return (dict [("message", "Task deleted successfully")]) ],
     mkWorld (tasks w) (tasks_id_seq w + 1) (log w)).
Proof.
  intros Hwf Hmax. pose proof (well_formed_fresh _ Hwf) as Hnew.
  cbn [run]. rewrite serve_POST.
  rewrite (create_task_ok w (TaskCreate.parse body) Hmax Hnew). cbv zeta.
  cbn [fst snd wrap]. rewrite serve_DELETE.
  set (row := Task.store _ _). set (w1 := mkWorld _ _ _).
  assert (Hl : lookup (tasks_id_seq w) w1 = Some row).
  { unfold lookup, w1; cbn [tasks]. now apply find_app_new. }
  rewrite (delete_task_ok w1 _ _ Hl). cbn [fst snd wrap].
  unfold w1; cbn [tasks tasks_id_seq log]. do 2 f_equal.
  rewrite filter_app, filter_absent by exact Hnew. simpl.
  unfold has_id at 1. unfold row; simpl. rewrite Z.eqb_refl. simpl.
  apply app_nil_r.
Qed.

Lemma create_then_delete_witness :
  tasks (snd (run sample_world
                [(POST_tasks body_A, []);
                 (DELETE_tasks (tasks_id_seq sample_world), [])]))
  = tasks sample_world.
Proof.
  rewrite (create_then_delete body_A sample_world sample_world_is_well_formed
             sample_world_seq_ok).
  reflexivity.
Defined.

(** X11: the status filter reads its argument up to case.  Two statuses that
    are equal up to the case of their letters get the same answer, under any
    fault plan. *)
Theorem get_tasks_status_up_to_case (s1 s2 : string)
  (fs : list (option string)) (w : World) :
  caseless_eq s1 s2 = true ->
  get_db (get_tasks (Some s1)) fs w = get_db (get_tasks (Some s2)) fs w.
Proof.
  intros H. pose proof (caseless_lower _ _ H) as Hl.
  destruct s1 as [|a1 s1], s2 as [|a2 s2]; try discriminate H; [reflexivity|].
  unfold get_tasks. now rewrite Hl.
Qed.

Lemma get_tasks_status_up_to_case_witness :
  get_db (get_tasks (Some "PENDING")) [] sample_world
  = get_db (get_tasks (Some "pending")) [] sample_world.
Proof.
  exact (get_tasks_status_up_to_case "PENDING" "pending" [] sample_world
           eq_refl).
Defined.

(** X12: a task that [create_task] returns is the request, whatever the
    store failures: it carries the id the sequence had, the four fields of
    the request, it is stored, and it passes [TaskResponse]. *)
Theorem create_task_echoes_request (task : TaskCreate.t)
  (fs : list (option string)) (w w' : World) (t : Task.t) :
  get_db (create_task task) fs w = (Return t, w') ->
  t = created (tasks_id_seq w) task
  /\ In (Task.store (tasks_id_seq w) t) (tasks w')
  /\ TaskResponse.from_orm t
     = Some (TaskResponse.mk (tasks_id_seq w) (TaskCreate.title task)
               (TaskCreate.description task) (TaskCreate.completed task)
               (TaskCreate.color task)).
Proof.
  intros Hrun. pose proof (create_task_outcome fs w task) as H.
  rewrite Hrun in H. destruct H as [-> ->]. repeat split.
  cbn [tasks]. apply in_or_app. right. now left.
Qed.

Lemma create_task_echoes_request_witness :
  TaskResponse.from_orm
    (created (tasks_id_seq sample_world) (TaskCreate.parse body_A))
  = Some (TaskResponse.mk 5 "A" "d" false "#ffffff").
Proof.
  destruct (create_task_echoes_request (TaskCreate.parse body_A) [None]
              sample_world
              (snd (get_db (create_task (TaskCreate.parse body_A)) [None]
                      sample_world))
              (created (tasks_id_seq sample_world) (TaskCreate.parse body_A))
              eq_refl)
    as (_ & _ & H).
  exact H.
Defined.

Lemma from_orm_load r :
  TaskResponse.from_orm (Task.load r) = None <-> complete r = false.
Proof.
  destruct r as [i [t|] [d|] [c|] [k|]]; simpl; split; intros H;
    reflexivity || discriminate H.
Qed.

Lemma from_orm_list_load rows :
  from_orm_list (map Task.load rows) = None <-> forallb complete rows = false.
Proof.
  induction rows as [|r rows IH]; simpl.
  - split; discriminate.
  - destruct (TaskResponse.from_orm (Task.load r)) as [x|] eqn:E.
    + assert (Hc : complete r = true).
      { destruct (complete r) eqn:Hc; [reflexivity|].
        apply from_orm_load in Hc. congruence. }
      rewrite Hc; simpl. rewrite <- IH.
      destruct (from_orm_list (map Task.load rows)); split; congruence.
    + apply from_orm_load in E. rewrite E; simpl. tauto.
Qed.

Lemma lookup_after_update w task_id u r :
  lookup task_id w = Some r ->
  lookup task_id (snd (get_db (update_task task_id u) [] w))
  = Some (Task.store task_id
            (fold_left setattr (TaskUpdate.dict_exclude_unset u)
               (Task.load r))).
Proof.
  intros Hl. rewrite (update_task_ok w task_id u r Hl). cbv zeta.
  unfold lookup in *; cbn [snd tasks].
  destruct (TaskUpdate.dict_exclude_unset u) as [|kv its] eqn:E.
  - rewrite Hl. f_equal. simpl. pose proof (find_has_id _ _ _ Hl).
    destruct r; simpl in *. now subst.
  - now apply find_update_same with (r := r).
Qed.

(** X13: a null in an update payload is stored, and breaks the response.
    With no store failure, an update of a stored row without NULL commits
    what it returns, and what it returns fails [TaskResponse] exactly when
    the payload sets some field to null. *)
Theorem update_null_breaks_response (task_id : Z) (u : TaskUpdate.t)
  (w : World) (r : Row.t) :
  lookup task_id w = Some r ->
  complete r = true ->
  exists t w',
    get_db (update_task task_id u) [] w = (Return t, w')
    /\ lookup task_id w' = Some (Task.store task_id t)
    /\ (TaskResponse.from_orm t = None <-> sets_null u = true).
Proof.
  intros Hl Hc. eexists _, _. split; [|split].
  - rewrite (update_task_ok w task_id u r Hl). cbv zeta. reflexivity.
  - pose proof (lookup_after_update w task_id u r Hl) as H.
    rewrite (update_task_ok w task_id u r Hl) in H. exact H.
  - rewrite fold_setattr_fields. unfold sets_null.
    destruct r as [i [t|] [d|] [c|] [k|]]; try discriminate Hc.
    destruct u as [[[t'|]|] [[d'|]|] [[c'|]|] [[k'|]|]]; simpl;
      split; intros H; reflexivity || discriminate H.
Qed.

Lemma update_null_breaks_response_witness :
  exists t w',
    get_db (update_task 1 null_texts) [] sample_world = (Return t, w')
    /\ TaskResponse.from_orm t = None
    /\ lookup 1 w' = Some (Row.mk 1 None None (Some false) (Some "#ffffff")).
Proof.
  destruct (update_null_breaks_response 1 null_texts sample_world
              (Row.mk 1 (Some "A") (Some "d") (Some false) (Some "#ffffff"))
              eq_refl eq_refl)
    as (t & w' & Hrun & Hl & Hv).
  exists t, w'. split; [exact Hrun|]. split; [now apply Hv|].
  rewrite Hl. vm_compute in Hrun. injection Hrun as <- _. reflexivity.
Defined.

(** X14: one row with a NULL fails every unfiltered listing.  With no store
    failure, the list [get_tasks] returns without a status passes
    [list[TaskResponse]] exactly when no stored row holds a NULL. *)
Theorem listing_validates_iff_complete (w : World) :
  exists l,
    get_db (get_tasks None) [] w = (Return l, w)
    /\ (from_orm_list l = None <-> forallb complete (tasks w) = false).
Proof.
  eexists. split; [apply get_tasks_ok|]. apply from_orm_list_load.
Qed.

(** One request without a null keeps the rows free of NULL, and what it
    returns passes its [response_model]. *)
Lemma serve_keeps_complete r fs w :
  null_free r = true ->
  forallb complete (tasks w) = true ->
  forallb complete (tasks (snd (serve r fs w))) = true
  /\ validates (fst (serve r fs w)) = true.
Proof.
  intros Hr Hw. destruct r as [body|status|task_id u|task_id].
  - rewrite serve_POST.
    pose proof (create_task_outcome fs w (TaskCreate.parse body)) as H.
    destruct (get_db (create_task (TaskCreate.parse body)) fs w)
      as [[t|e] w']; cbn [fst snd wrap].
    + destruct H as [-> ->]. cbn [tasks]. rewrite forallb_app, Hw.
      split; reflexivity.
    + destruct H as (cause & _ & [[-> _]|[-> _]]);
        rewrite ?forallb_app, Hw; split; reflexivity.
  - rewrite serve_GET.
    pose proof (get_tasks_outcome status fs w) as H.
    assert (Hl : forall l w', get_db (get_tasks status) fs w = (Return l, w') ->
                 exists p, l = map Task.load (filter p (tasks w))).
    { unfold get_db, get_tasks, try_except_Exception, SessionLocal, all.
      destruct status as [[|a s]|]; crunch; intros l w' [= <- _];
        eexists; reflexivity. }
    destruct (get_db (get_tasks status) fs w) as [[l|e] w'] eqn:E;
      cbn [fst snd wrap].
    + subst w'. split; [exact Hw|]. destruct (Hl _ _ eq_refl) as [p ->].
      simpl. destruct (from_orm_list _) eqn:Ef; [reflexivity|].
      apply from_orm_list_load in Ef.
      rewrite forallb_forall in Hw.
      assert (Hf : forallb complete (filter p (tasks w)) = true).
      { apply forallb_forall. intros x Hx. apply filter_In in Hx as [Hx _].
        now apply Hw. }
      congruence.
    + destruct H as [cause ->]. split; [exact Hw | reflexivity].
  - rewrite serve_PUT. simpl in Hr. apply negb_true_iff in Hr.
    pose proof (update_task_outcome task_id u fs w) as H. cbv zeta in H.
    assert (Hkeep : forall r, lookup task_id w = Some r ->
              complete (Task.store task_id
                          (fold_left setattr (TaskUpdate.dict_exclude_unset u)
                             (Task.load r))) = true
              /\ forallb complete
                   (match TaskUpdate.dict_exclude_unset u with
                    | [] => tasks w
                    | _ :: _ =>
                        map (fun r' =>
                               if has_id task_id r'
                               then Task.store task_id
                                      (fold_left setattr
                                         (TaskUpdate.dict_exclude_unset u)
                                         (Task.load r))
                               else r')
                            (tasks w)
                    end) = true).
    { intros r Hl.
      assert (Hc : complete r = true).
      { rewrite forallb_forall in Hw. apply Hw.
        now apply find_some in Hl. }
      assert (Hn : complete (Task.store task_id
                      (fold_left setattr (TaskUpdate.dict_exclude_unset u)
                         (Task.load r))) = true).
      { rewrite fold_setattr_fields. unfold sets_null in Hr.
        destruct r as [i [t|] [d|] [c|] [k|]]; try discriminate Hc.
        destruct u as [[[t'|]|] [[d'|]|] [[c'|]|] [[k'|]|]]; simpl in *;
          reflexivity || discriminate Hr. }
      split; [exact Hn|].
      destruct (TaskUpdate.dict_exclude_unset u); [exact Hw|].
      rewrite forallb_forall in *. intros x Hx.
      apply in_map_iff in Hx as [y [<- Hy]].
      destruct (has_id task_id y); [exact Hn | now apply Hw]. }
    destruct (get_db (update_task task_id u) fs w) as [[t|e] w'];
      cbn [fst snd wrap].
    + destruct H as (r & Hl & -> & ->). cbn [tasks].
      destruct (Hkeep r Hl) as [Hn Hrows]. split; [exact Hrows|].
      simpl. rewrite fold_setattr_fields in *.
      pose proof (find_has_id _ _ _ Hl) as Hid.
      destruct r as [i [t|] [d|] [c|] [k|]];
        destruct u as [[[t'|]|] [[d'|]|] [[c'|]|] [[k'|]|]]; simpl in *;
        reflexivity || discriminate Hn.
    + destruct H as (cause & _ & _ & [->|(r & Hl & ->)]);
        [split; [exact Hw | reflexivity]|].
      split; [apply (Hkeep r Hl) | reflexivity].
  - rewrite serve_DELETE.
    pose proof (delete_task_outcome task_id fs w) as H.
    assert (Hf : forallb complete
                   (filter (fun r => negb (has_id task_id r)) (tasks w))
                 = true).
    { rewrite forallb_forall in *. intros x Hx.
      apply filter_In in Hx as [Hx _]. now apply Hw. }
    destruct (get_db (delete_task task_id) fs w) as [[d|e] w'];
      cbn [fst snd wrap].
    + destruct H as (_ & _ & ->). split; [exact Hf | reflexivity].
    + destruct H as (cause & _ & _ & [->| ->]); split;
        assumption || reflexivity.
Qed.

(** X15: without nulls in update payloads nothing ever fails its response
    model.  After any history from the empty table in which no update sets a
    field to null, under any store failures, no stored row holds a NULL and
    everything the handlers returned passes its [response_model]. *)
Theorem null_free_history_validates
  (history : list (request * list (option string))) :
  forallb (fun rq => null_free (fst rq)) history = true ->
  forallb complete (tasks (snd (run empty_world history))) = true
  /\ forallb validates (fst (run empty_world history)) = true.
Proof.
  assert (H : forall w,
            forallb complete (tasks w) = true ->
            forallb (fun rq => null_free (fst rq)) history = true ->
            forallb complete (tasks (snd (run w history))) = true
            /\ forallb validates (fst (run w history)) = true).
  { induction history as [|[r fs] rest IH]; intros w Hw Hh; simpl in *.
    - split; [exact Hw | reflexivity].
    - apply andb_prop in Hh as [Hr Hrest].
      destruct (serve_keeps_complete r fs w Hr Hw) as [Hw1 Hv].
      destruct (serve r fs w) as [resp w1]; simpl in *.
      destruct (IH w1 Hw1 Hrest) as [Hw2 Hvs].
      destruct (run w1 rest) as [resps w2]; simpl in *.
      split; [exact Hw2 | now rewrite Hv]. }
  apply H. reflexivity.
Qed.

Lemma null_free_history_validates_witness :
  forallb validates (fst (run empty_world sample_history)) = true.
Proof.
  exact (proj2 (null_free_history_validates sample_history eq_refl)).
Defined.

(* ================================================================= *)
(** ** Nullable columns, the empty status, the empty update *)

(** C8: the claim that [title] and [description] reject NULL fails.  Of the
    columns of [tasks] only [id], the primary key, is NOT NULL.  [title] and
    [description], like [completed] and [color], accept NULL: with no store
    failure an update whose payload sets the four fields to null is
    committed, and the row of that id then holds NULL in all four.  When a
    create leaves [completed] and [color] out, the request model fills in
    false and "#ffffff", and these are what the stored row holds. *)
Theorem tasks_columns_nullability :
  map (fun c => (Column.name c, Column.nullable c)) Task.columns
  = [ ("id", false); ("title", true); ("description", true);
      ("completed", true); ("color", true) ]
  /\ (forall w task_id r,
        lookup task_id w = Some r ->
        lookup task_id (snd (get_db (update_task task_id all_null) [] w))
        = Some (Row.mk task_id None None None None))
  /\ (forall title description fs w t w',
        get_db
          (create_task
             (TaskCreate.parse
                (TaskCreate.mk_body title description None None)))
          fs w
        = (Return t, w') ->
        In (Row.mk (tasks_id_seq w) (Some title) (Some description)
              (Some false) (Some "#ffffff"))
           (tasks w')).
Proof.
  split; [reflexivity|]. split.
  - intros w task_id r Hl.
    now rewrite (lookup_after_update w task_id all_null r Hl).
  - intros title description fs w t w' Hrun.
    pose proof (create_task_outcome fs w
                  (TaskCreate.parse
                     (TaskCreate.mk_body title description None None))) as H.
    rewrite Hrun in H. destruct H as [_ ->]. cbn [tasks].
    apply in_or_app. right. now left.
Qed.

Lemma tasks_columns_nullability_witness :
  lookup 2 (snd (get_db (update_task 2 all_null) [] sample_world))
  = Some (Row.mk 2 None None None None)
  /\ In (Row.mk 5 (Some "A") (Some "d") (Some false) (Some "#ffffff"))
        (tasks (snd (get_db (create_task (TaskCreate.parse body_A)) []
                       sample_world))).
Proof.
  destruct tasks_columns_nullability as (_ & Hnull & Hnew).
  split.
  - exact (Hnull sample_world 2
             (Row.mk 2 (Some "B") (Some "e") (Some true) (Some "#ff0000"))
             eq_refl).
  - exact (Hnew "A" "d" [] sample_world
             (created 5 (TaskCreate.parse body_A))
             (snd (get_db (create_task (TaskCreate.parse body_A)) []
                     sample_world))
             eq_refl).
Defined.

(** The columns [title] and [description] are declared nullable, and an
    update whose payload sets both to null, sent after a create, leaves a
    stored row with NULL in both. *)
Lemma title_and_description_accept_null :
  Column.nullable Task.title_column = true
  /\ Column.nullable Task.description_column = true
  /\ run empty_world [(POST_tasks body_A, []); (PUT_tasks 1 null_texts, [])]
     = ([ Return (one_task (Task.mk (Some 1) (Some "A") (Some "d")
                              (Some false) (Some "#ffffff")));
          Return (one_task (Task.mk (Some 1) None None (Some false)
                              (Some "#ffffff"))) ],
        mkWorld [Row.mk 1 None None (Some false) (Some "#ffffff")] 2 []).
Proof. repeat split. Qed.

(** C9: with no store failure, [get_tasks] with the empty string as status
    returns every stored task, each with the id and the four fields of its
    row, whatever its [completed]; this is what it returns when no status is
    given, and the table is left as it was. *)
Theorem get_tasks_empty_status (w : World) :
  get_db (get_tasks (Some "")) [] w
  = (Return
       (map (fun r =>
               Task.mk (Some (Row.id r)) (Row.title r) (Row.description r)
                 (Row.completed r) (Row.color r))
            (tasks w)),
     w)
  /\ get_db (get_tasks (Some "")) [] w = get_db (get_tasks None) [] w.
Proof.
  split; exec; rewrite select_nil; now destruct w.
Qed.

Lemma get_tasks_empty_status_witness :
  get_db (get_tasks (Some "")) [] sample_world
  = (Return
       [ Task.mk (Some 1) (Some "A") (Some "d") (Some false) (Some "#ffffff");
         Task.mk (Some 2) (Some "B") (Some "e") (Some true) (Some "#ff0000");
         Task.mk (Some 4) None (Some "f") None (Some "#00ff00") ],
     sample_world)
  /\ get_db (get_tasks (Some "pending")) [] sample_world
     = (Return
          [ Task.mk (Some 1) (Some "A") (Some "d") (Some false)
              (Some "#ffffff") ],
        sample_world).
Proof.
  split.
  - rewrite (proj1 (get_tasks_empty_status sample_world)). reflexivity.
  - reflexivity.
Defined.

(** [update_task] with an empty payload, as far as the handler goes. *)
Lemma update_task_empty_returns (w : World) (task_id : Z) (r : Row.t) :
  lookup task_id w = Some r ->
  get_db (update_task task_id empty_update) [] w = (Return (Task.load r), w).
Proof.
  intros Hl. rewrite (update_task_ok w task_id empty_update r Hl).
  simpl. now rewrite world_eta.
Qed.

(** C10: the claim that an empty update succeeds for every stored id fails
    on a row that holds a NULL.  With no store failure, [update_task] with an
    empty payload on a stored task returns that task with the id and the
    four fields of its row and leaves rows, sequence and log as they were,
    for every stored id.  The answer is the 200 with exactly those fields
    when the row holds no NULL; when it holds one, [TaskResponse] refuses the
    task and the answer is the framework's 500. *)
Theorem empty_update_is_noop (w : World) (task_id : Z) (r : Row.t) :
  lookup task_id w = Some r ->
  serve (PUT_tasks task_id empty_update) [] w
  = (Return (one_task (Task.mk (Some task_id) (Row.title r)
                         (Row.description r) (Row.completed r) (Row.color r))),
     w)
  /\ (complete r = true ->
      exists x,
        respond (fst (serve (PUT_tasks task_id empty_update) [] w))
        = (200, task_body x)
        /\ TaskResponse.id x = task_id
        /\ Row.title r = Some (TaskResponse.title x)
        /\ Row.description r = Some (TaskResponse.description x)
        /\ Row.completed r = Some (TaskResponse.completed x)
        /\ Row.color r = Some (TaskResponse.color x))
  /\ (complete r = false ->
      respond (fst (serve (PUT_tasks task_id empty_update) [] w))
      = (500, text_body "Internal Server Error")).
Proof.
  intros Hl. pose proof (find_has_id _ _ _ Hl) as Hid.
  assert (Hs : serve (PUT_tasks task_id empty_update) [] w
               = (Return (one_task (Task.mk (Some task_id) (Row.title r)
                                      (Row.description r) (Row.completed r)
                                      (Row.color r))),
                  w)).
  { rewrite serve_PUT, (update_task_empty_returns w task_id r Hl).
    cbn [fst snd wrap]. unfold Task.load. now rewrite Hid. }
  rewrite Hs. cbn [fst]. split; [reflexivity|]. split.
  - intros Hc. destruct r as [i [t|] [d|] [c|] [k|]]; try discriminate Hc.
    simpl. eexists. repeat split.
  - intros Hc.
    destruct r as [i [t|] [d|] [c|] [k|]]; try discriminate Hc; reflexivity.
Qed.

Lemma empty_update_is_noop_witness :
  serve (PUT_tasks 2 empty_update) [] sample_world
  = (Return (one_task (Task.mk (Some 2) (Some "B") (Some "e") (Some true)
                         (Some "#ff0000"))),
     sample_world)
  /\ respond (fst (serve (PUT_tasks 2 empty_update) [] sample_world))
     = (200, task_body (TaskResponse.mk 2 "B" "e" true "#ff0000")).
Proof.
  destruct (empty_update_is_noop sample_world 2
              (Row.mk 2 (Some "B") (Some "e") (Some true) (Some "#ff0000"))
              eq_refl)
    as (Hs & Hok & _).
  split; [exact Hs|].
  destruct (Hok eq_refl) as (x & Hx & Hi & Ht & Hd & Hc & Hk).
  rewrite Hx. destruct x as [i t d c k]; simpl in *.
  injection Ht as <-. injection Hd as <-. injection Hc as <-.
  injection Hk as <-. now subst i.
Defined.

(** After a create and an update that sets the two texts to null, the row of
    id 1 holds NULLs, and the empty update of id 1 is answered with 500. *)
Lemma empty_update_of_null_row_answers_500 :
  lookup 1
    (snd (run empty_world
            [(POST_tasks body_A, []); (PUT_tasks 1 null_texts, [])]))
  = Some (Row.mk 1 None None (Some false) (Some "#ffffff"))
  /\ respond
       (fst (serve (PUT_tasks 1 empty_update) []
               (snd (run empty_world
                       [(POST_tasks body_A, []);
                        (PUT_tasks 1 null_texts, [])]))))
     = (500, text_body "Internal Server Error").
Proof. split; reflexivity. Qed.
